(** * Vidley frontend: download history, request lifecycle and debounce

    A shallow embedding of [frontend/src/App.js].  The React component [App]
    keeps its state in [useState] cells; here they are the fields of one
    record, [AppState], and every setter is a function on the surrounding
    [World], which also holds what the component talks to: the localforage
    store, the requests handed to axios, the console and the windows opened.

    An [async] function is cut at its [await]: the part before it is a
    [..._begin] function, the part after it a [..._resume] function that
    receives how the awaited promise settled.  A function created during a
    render reads the state variables of that render (its closure), and writes
    through the setters to the current state; the render is therefore an
    explicit argument [r], apart from the world [w] that is updated. *)

From Stdlib Require Import Ascii String.
From stdpp Require Import gmap strings list pretty.

#[local] Open Scope string_scope.

(** ** JavaScript values *)

(** Values as they occur in the JSON bodies and in the state cells.  Numbers
    are integers (durations in seconds).  An object is a finite map from
    property names to values. *)
#[warnings="-register-all"]
Inductive jsval : Type :=
  | VUndef
  | VNull
  | VBool (b : bool)
  | VNum (n : Z)
  | VStr (s : string)
  | VObj (o : gmap string jsval).

Abbreviation JsObject := (gmap string jsval).

(** [ToBoolean]: what [if (v)], [!v] and [v || w] test. *)
Definition truthy (v : jsval) : bool :=
  match v with
  | VUndef | VNull => false
  | VBool b => b
  | VNum n => negb (n =? 0)%Z
  | VStr s => negb (String.eqb s "")
  | VObj _ => true
  end.

(** [a || b] *)
Definition js_or (a b : jsval) : jsval := if truthy a then a else b.

(** [o.k] on an object: a missing property reads as [undefined]. *)
Definition get (o : JsObject) (k : string) : jsval := default VUndef (o !! k).

(** [v?.k]: [undefined] on [undefined] and [null]; a primitive has none of
    the properties read in this file. *)
Definition opt_get (v : jsval) (k : string) : jsval :=
  match v with
  | VObj o => get o k
  | _ => VUndef
  end.

(** ** Strings *)

(** White space removed by [String.prototype.trim], among the code units
    below 256: TAB, LF, VT, FF, CR, SP and NBSP. *)
Definition is_white_space (c : ascii) : bool :=
  let n := nat_of_ascii c in
  (n =? 9)%nat || (n =? 10)%nat || (n =? 11)%nat || (n =? 12)%nat
  || (n =? 13)%nat || (n =? 32)%nat || (n =? 160)%nat.

Fixpoint trimStart (s : string) : string :=
  match s with
  | EmptyString => EmptyString
  | String c s' => if is_white_space c then trimStart s' else s
  end.

Fixpoint string_rev_onto (s acc : string) : string :=
  match s with
  | EmptyString => acc
  | String c s' => string_rev_onto s' (String c acc)
  end.

Definition string_reverse (s : string) : string := string_rev_onto s EmptyString.

Definition trimEnd (s : string) : string :=
  string_reverse (trimStart (string_reverse s)).

(** [s.trim()] *)
Definition trim (s : string) : string := trimEnd (trimStart s).

(** [!!s] for a string: non-empty. *)
Definition nonempty (s : string) : bool := negb (String.eqb s "").

(** [s.includes(sub)] *)
Fixpoint includes (s sub : string) : bool :=
  if String.prefix sub s then true
  else match s with
       | EmptyString => false
       | String _ s' => includes s' sub
       end.

(** ** Application state *)

(** [QUALITY_OPTIONS]: the values of the quality selector. *)
Inductive Quality : Type := best | high | medium | low.

Definition quality_value (q : Quality) : string :=
  match q with
  | best => "best"
  | high => "high"
  | medium => "medium"
  | low => "low"
  end.

(** The [message] cell, [{ type, text }].  The text is a value: it can come
    from a response body. *)
Record Message : Type := mkMessage { type : string; text : jsval }.

(** The [useState] cells of [App]. *)
Record AppState : Type := mkAppState {
  url : string;
  quality : Quality;
  loading : bool;
  loadingInfo : bool;
  message : Message;
  videoInfo : jsval;
  downloadHistory : list JsObject;
  isOnline : bool
}.

(** The state at mount, given [navigator.onLine]. *)
Definition initialState (onLine : bool) : AppState :=
  {| url := ""; quality := best; loading := false; loadingInfo := false;
     message := mkMessage "" (VStr ""); videoInfo := VNull;
     downloadHistory := []; isOnline := onLine |}.

(** ** The world around the component *)

(** Calls made on the persistence adapter (localforage). *)
Inductive StoreOp : Type :=
  | GetItem (key : string)
  | SetItem (key : string) (value : list JsObject)
  | RemoveItem (key : string).

(** A request handed to [axios.post]. *)
Record Request : Type := mkRequest { endpoint : string; body : JsObject }.

Record World : Type := mkWorld {
  app : AppState;                          (* current React state *)
  storage : gmap string (list JsObject);   (* content of the localforage store *)
  adapter : list StoreOp;                  (* adapter calls, oldest first *)
  network : list Request;                  (* requests issued, oldest first *)
  console : list (string * jsval);         (* console.error lines, oldest first *)
  windows : list string                    (* window.open targets, oldest first *)
}.

(** What the [catch] blocks read from the value they caught:
    [error.response?.data] (absent when there was no response, and for an
    error that is not from axios) and [error.message]. *)
Record JsError : Type := mkJsError {
  response_data : option jsval;
  error_message : jsval
}.

(** How [axios.post] settles: fulfilled with a response whose [data] is the
    JSON object of the body, or rejected (no response, or a status outside
    2xx with axios' default [validateStatus]). *)
Inductive AxiosResult : Type :=
  | Fulfilled (data : JsObject)
  | Rejected (error : JsError).

(** How an awaited adapter call settles, with the error it rejects with. *)
Inductive AdapterResult : Type :=
  | AdapterOk
  | AdapterFail (error : JsError).

(** [API_URL], at its default; the override from the build environment is
    configuration. *)
Definition API_URL : string := "http://localhost:8000".

(** How the promise of an [async] function of the component settles. *)
Inductive Settled : Type :=
  | Resolved (v : jsval)
  | Thrown (error : JsError).

(** Where an [async] function stands after its synchronous prefix. *)
Inductive Progress : Type :=
  | Finished (w : World)    (* returned before any [await] *)
  | Awaiting (w : World).   (* suspended on the request it issued *)

(** *** Setters and effects *)

Definition set_app (f : AppState -> AppState) (w : World) : World :=
  {| app := f (app w); storage := storage w; adapter := adapter w;
     network := network w; console := console w; windows := windows w |}.

Definition setUrl (v : string) : World -> World :=
  set_app (fun s => mkAppState v (quality s) (loading s) (loadingInfo s)
                      (message s) (videoInfo s) (downloadHistory s) (isOnline s)).

Definition setQuality (v : Quality) : World -> World :=
  set_app (fun s => mkAppState (url s) v (loading s) (loadingInfo s)
                      (message s) (videoInfo s) (downloadHistory s) (isOnline s)).

Definition setLoading (v : bool) : World -> World :=
  set_app (fun s => mkAppState (url s) (quality s) v (loadingInfo s)
                      (message s) (videoInfo s) (downloadHistory s) (isOnline s)).

Definition setLoadingInfo (v : bool) : World -> World :=
  set_app (fun s => mkAppState (url s) (quality s) (loading s) v
                      (message s) (videoInfo s) (downloadHistory s) (isOnline s)).

Definition setMessage (v : Message) : World -> World :=
  set_app (fun s => mkAppState (url s) (quality s) (loading s) (loadingInfo s)
                      v (videoInfo s) (downloadHistory s) (isOnline s)).

Definition setVideoInfo (v : jsval) : World -> World :=
  set_app (fun s => mkAppState (url s) (quality s) (loading s) (loadingInfo s)
                      (message s) v (downloadHistory s) (isOnline s)).

Definition setDownloadHistory (v : list JsObject) : World -> World :=
  set_app (fun s => mkAppState (url s) (quality s) (loading s) (loadingInfo s)
                      (message s) (videoInfo s) v (isOnline s)).

Definition setIsOnline (v : bool) : World -> World :=
  set_app (fun s => mkAppState (url s) (quality s) (loading s) (loadingInfo s)
                      (message s) (videoInfo s) (downloadHistory s) v).

(** A call on the adapter is recorded whether or not it succeeds. *)
Definition adapter_call (op : StoreOp) (w : World) : World :=
  {| app := app w; storage := storage w; adapter := adapter w ++ [op];
     network := network w; console := console w; windows := windows w |}.

Definition set_storage (f : gmap string (list JsObject) -> gmap string (list JsObject))
    (w : World) : World :=
  {| app := app w; storage := f (storage w); adapter := adapter w;
     network := network w; console := console w; windows := windows w |}.

(** [axios.post(endpoint, body)] *)
Definition axios_post (e : string) (b : JsObject) (w : World) : World :=
  {| app := app w; storage := storage w; adapter := adapter w;
     network := network w ++ [mkRequest e b]; console := console w;
     windows := windows w |}.

(** [console.error(label, error)] *)
Definition console_error (label : string) (error : JsError) (w : World) : World :=
  {| app := app w; storage := storage w; adapter := adapter w;
     network := network w;
     console := console w ++ [(label, error_message error)];
     windows := windows w |}.

(** [window.open(target, '_blank')] *)
Definition window_open (target : string) (w : World) : World :=
  {| app := app w; storage := storage w; adapter := adapter w;
     network := network w; console := console w;
     windows := windows w ++ [target] |}.

(** [`${v}`] *)
Definition to_string (v : jsval) : string :=
  match v with
  | VUndef => "undefined"
  | VNull => "null"
  | VBool true => "true"
  | VBool false => "false"
  | VNum n => pretty n
  | VStr s => s
  | VObj _ => "[object Object]"
  end.

(** ** History manager *)

(** [loadHistory], the effect run on mount. *)
Definition loadHistory (io : AdapterResult) (w : World) : World :=
  let w1 := adapter_call (GetItem "downloadHistory") w in
  match io with
  | AdapterOk =>
      match storage w1 !! "downloadHistory" with
      | Some history => setDownloadHistory history w1
      | None => w1
      end
  | AdapterFail error => console_error "Failed to load history:" error w1
  end.

(** [{ ...item, downloadedAt: new Date().toISOString() }], with [now] the
    string the clock gives. *)
Definition stamp (item : JsObject) (now : string) : JsObject :=
  <["downloadedAt" := VStr now]> item.

(** The constant [newHistory] of [saveToHistory]:
    [[stamped, ...downloadHistory].slice(0, 20)]. *)
Definition newHistory (downloadHistory : list JsObject) (item : JsObject)
    (now : string) : list JsObject :=
  take 20 (stamp item now :: downloadHistory).

(** [saveToHistory(item)], created in render [r].  [io] is how
    [localforage.setItem] settles; a rejected write leaves the store as it
    was.  The whole body is one [try]/[catch], so the promise returned is
    always fulfilled with [undefined]. *)
Definition saveToHistory (r : AppState) (item : JsObject) (now : string)
    (io : AdapterResult) (w : World) : Settled * World :=
  let nh := newHistory (downloadHistory r) item now in
  let w1 := adapter_call (SetItem "downloadHistory" nh) w in
  match io with
  | AdapterOk =>
      (Resolved VUndef,
       setDownloadHistory nh (set_storage (insert "downloadHistory" nh) w1))
  | AdapterFail error =>
      (Resolved VUndef, console_error "Failed to save history:" error w1)
  end.

(** [clearHistory()].  [io] is how [localforage.removeItem] settles. *)
Definition clearHistory (io : AdapterResult) (w : World) : Settled * World :=
  let w1 := adapter_call (RemoveItem "downloadHistory") w in
  match io with
  | AdapterOk =>
      (Resolved VUndef,
       setMessage (mkMessage "success" (VStr "History cleared"))
         (setDownloadHistory [] (set_storage (delete "downloadHistory") w1)))
  | AdapterFail error =>
      (Resolved VUndef, console_error "Failed to clear history:" error w1)
  end.

(** ** Remote API client *)

(** [error.response?.data?.detail] *)
Definition detail (error : JsError) : jsval :=
  match response_data error with
  | Some d => opt_get d "detail"
  | None => VUndef
  end.

(** [getVideoInfo], up to its [await]: the guard, the three resets and the
    request.  [r] is the render that created the callback ([useCallback]
    with dependency [url]). *)
Definition getVideoInfo_begin (r : AppState) (w : World) : Progress :=
  if negb (nonempty (trim (url r))) then Finished w
  else
    let w1 := setLoadingInfo true w in
    let w2 := setMessage (mkMessage "" (VStr "")) w1 in
    let w3 := setVideoInfo VNull w2 in
    Awaiting (axios_post (API_URL ++ "/api/video-info")
                {[ "url" := VStr (trim (url r)) ]} w3).

(** [getVideoInfo], from the settlement of the request to the end. *)
Definition getVideoInfo_resume (res : AxiosResult) (w : World) : World :=
  let w1 :=
    match res with
    | Fulfilled data =>
        if truthy (get data "success") then setVideoInfo (get data "data") w
        else
          setMessage
            (mkMessage "error"
               (js_or (get data "error") (VStr "Failed to get video info"))) w
    | Rejected error =>
        let errorMsg :=
          js_or (js_or (detail error) (error_message error))
                (VStr "Failed to connect to server") in
        setMessage (mkMessage "error" errorMsg) w
    end in
  setLoadingInfo false w1.

(** The object handed to [saveToHistory] by [handleDownload]. *)
Definition history_item (r : AppState) (data : JsObject) : JsObject :=
  <["url" := VStr (trim (url r))]>
  (<["title" := get data "title"]>
  (<["filename" := get data "filename"]>
  (<["duration" := get data "duration"]>
  (<["quality" := VStr (quality_value (quality r))]>
  (<["thumbnail" := opt_get (videoInfo r) "thumbnail"]> ∅))))).

(** The two messages of the admission checks of [handleDownload]. *)
Definition enter_url_message : Message :=
  mkMessage "error" (VStr "Please enter a video URL").

Definition offline_message : Message :=
  mkMessage "error"
    (VStr "You are offline. Please connect to the internet to download.").

(** [handleDownload], up to its first [await]: the two admission checks, the
    two resets and the request. *)
Definition handleDownload_begin (r : AppState) (w : World) : Progress :=
  if negb (nonempty (trim (url r))) then
    Finished (setMessage enter_url_message w)
  else if negb (isOnline r) then
    Finished (setMessage offline_message w)
  else
    let w1 := setLoading true w in
    let w2 := setMessage (mkMessage "" (VStr "")) w1 in
    Awaiting (axios_post (API_URL ++ "/api/download")
                (<["url" := VStr (trim (url r))]>
                 (<["quality" := VStr (quality_value (quality r))]> ∅)) w2).

(** The [catch] block of [handleDownload]. *)
Definition handleDownload_catch (error : JsError) (w : World) : World :=
  let errorMsg :=
    js_or (js_or (detail error) (error_message error))
          (VStr "Failed to download video") in
  setMessage (mkMessage "error" errorMsg) w.

(** [handleDownload], from the settlement of the request to the end.  [now]
    and [io] are the clock reading and the settlement of the write inside
    [saveToHistory]. *)
Definition handleDownload_resume (r : AppState) (res : AxiosResult)
    (now : string) (io : AdapterResult) (w : World) : World :=
  let w1 :=
    match res with
    | Fulfilled data =>
        if truthy (get data "success") then
          let w2 := window_open (API_URL ++ to_string (get data "download_url")) w in
          match saveToHistory r (history_item r data) now io w2 with
          | (Resolved _, w3) =>
              let w4 :=
                setMessage
                  (mkMessage "success"
                     (VStr "Download started! Check your downloads folder.")) w3 in
              setVideoInfo VNull (setUrl "" w4)
          | (Thrown error, w3) => handleDownload_catch error w3
          end
        else
          setMessage
            (mkMessage "error" (js_or (get data "error") (VStr "Download failed"))) w
    | Rejected error => handleDownload_catch error w
    end in
  setLoading false w1.

(** A whole call with nothing else running in between. *)
Definition getVideoInfo (r : AppState) (res : AxiosResult) (w : World) : World :=
  match getVideoInfo_begin r w with
  | Finished w' => w'
  | Awaiting w' => getVideoInfo_resume res w'
  end.

Definition handleDownload (r : AppState) (res : AxiosResult) (now : string)
    (io : AdapterResult) (w : World) : World :=
  match handleDownload_begin r w with
  | Finished w' => w'
  | Awaiting w' => handleDownload_resume r res now io w'
  end.

(** ** Debounced preview trigger *)

(** The page over logical time, in milliseconds.  [timer] is the timeout set
    by the effect on [[url, getVideoInfo]], with the time it is due and the
    render whose [url] and [getVideoInfo] its callback closed over.  [calls]
    records when the callback called [getVideoInfo], and for which input. *)
Record Page : Type := mkPage {
  world : World;
  timer : option (nat * AppState);
  calls : list (nat * string)
}.

(** The condition of the callback: [url.trim() && url.includes('http')]. *)
Definition preview_gate (url : string) : bool :=
  nonempty (trim url) && includes url "http".

(** The callback given to [setTimeout], run at time [t]. *)
Definition timer_callback (t : nat) (r : AppState) (p : Page) : Page :=
  if preview_gate (url r) then
    let w' := match getVideoInfo_begin r (world p) with
              | Finished w' => w'
              | Awaiting w' => w'
              end in
    {| world := w'; timer := timer p; calls := calls p ++ [(t, url r)] |}
  else p.

(** The effect after a render at time [t]: the cleanup of the previous run
    clears its timeout, then a timeout of 500 is set. *)
Definition url_effect (t : nat) (p : Page) : Page :=
  {| world := world p; timer := Some (t + 500, app (world p)); calls := calls p |}.

(** Time reaches [t]: a timeout that is due runs. *)
Definition advance (t : nat) (p : Page) : Page :=
  match timer p with
  | Some (due, r) =>
      if (due <=? t)%nat then
        timer_callback due r {| world := world p; timer := None; calls := calls p |}
      else p
  | None => p
  end.

(** [onChange] at time [t]: [setUrl(e.target.value)].  The effect runs again
    only when [url] differs from the one of the previous render. *)
Definition onChange (t : nat) (v : string) (p : Page) : Page :=
  let p1 := advance t p in
  if String.eqb (url (app (world p1))) v then p1
  else
    url_effect t
      {| world := setUrl v (world p1); timer := timer p1; calls := calls p1 |}.

(** A run of input changes, each with its time. *)
Fixpoint typing (changes : list (nat * string)) (p : Page) : Page :=
  match changes with
  | [] => p
  | (t, v) :: rest => typing rest (onChange t v p)
  end.

(** ** Runs and observations used in the statements *)

(** One append in the current render: [saveToHistory] called with the log
    the page shows. *)
Definition append (op : JsObject * string * AdapterResult) (w : World) : World :=
  let '(item, now, io) := op in
  snd (saveToHistory (app w) item now io w).

(** The worlds after each append of a sequence, in order. *)
Fixpoint history_trace (ops : list (JsObject * string * AdapterResult))
    (w : World) : list World :=
  match ops with
  | [] => []
  | op :: rest => append op w :: history_trace rest (append op w)
  end.

Definition written (op : JsObject * string * AdapterResult) : Prop :=
  snd op = AdapterOk.

Definition bounded (w : World) : Prop :=
  length (downloadHistory (app w)) <= 20.

(** The banner under the form: rendered when [message.text] is truthy, as an
    error when [message.type === 'error']. *)
Definition shows_error (w : World) : Prop :=
  type (message (app w)) = "error" /\ truthy (text (message (app w))) = true.

(** A response that reports failure in its body, or no usable response. *)
Definition failed (res : AxiosResult) : Prop :=
  match res with
  | Fulfilled data => truthy (get data "success") = false
  | Rejected _ => True
  end.

(** The only way the caller of an [async] function can tell a failure from a
    success: the promise rejects, or fulfils with something to inspect. *)
Definition informs_caller (c : Settled) : Prop :=
  match c with
  | Thrown _ => True
  | Resolved v => v <> VUndef
  end.

(** The world in which the request of an admitted download is pending. *)
Definition download_pending (r : AppState) (w : World) : World :=
  axios_post (API_URL ++ "/api/download")
    (<["url" := VStr (trim (url r))]>
     (<["quality" := VStr (quality_value (quality r))]> ∅))
    (setMessage (mkMessage "" (VStr "")) (setLoading true w)).

(** The text surfaced once the request of either operation has settled. *)
Definition surfaced_info (res : AxiosResult) (w : World) : jsval :=
  text (message (app (getVideoInfo_resume res w))).

Definition surfaced_download (r : AppState) (res : AxiosResult) (now : string)
    (io : AdapterResult) (w : World) : jsval :=
  text (message (app (handleDownload_resume r res now io w))).

(** Two metadata fetches in flight at once: the one of render [r1] goes out,
    then the one of render [r2]; the newer one settles first, the older one
    after it.  The result is the world after each of the two settlements. *)
Definition overlapping_fetches (r1 r2 : AppState) (res1 res2 : AxiosResult)
    (w : World) : option (World * World) :=
  match getVideoInfo_begin r1 w with
  | Awaiting w1 =>
      match getVideoInfo_begin r2 w1 with
      | Awaiting w2 =>
          let w3 := getVideoInfo_resume res2 w2 in
          Some (w3, getVideoInfo_resume res1 w3)
      | Finished _ => None
      end
  | Finished _ => None
  end.

(** Input changes that follow one another by less than 500 ms, the first of
    them after time [t]. *)
Fixpoint rapid (t : nat) (changes : list (nat * string)) : Prop :=
  match changes with
  | [] => True
  | (t', _) :: rest => t <= t' /\ t' < t + 500 /\ rapid t' rest
  end.

(** Every change gives the input a value other than the one it had. *)
Fixpoint each_differs (v : string) (changes : list (nat * string)) : Prop :=
  match changes with
  | [] => True
  | (_, v') :: rest => v' <> v /\ each_differs v' rest
  end.

Fixpoint last_change (c : nat * string) (rest : list (nat * string))
    : nat * string :=
  match rest with
  | [] => c
  | c' :: rest' => last_change c' rest'
  end.

(** No timeout is due at time [t] or before. *)
Definition quiet_at (t : nat) (p : Page) : Prop :=
  match timer p with
  | Some (due, _) => t < due
  | None => True
  end.

(** The page has settled on input [v], changed at time [t]: the timeout of
    that change is the one pending, and nothing was fetched since [p0]. *)
Definition settled_on (t : nat) (v : string) (p0 p : Page) : Prop :=
  timer p = Some (t + 500, app (world p))
  /\ url (app (world p)) = v
  /\ calls p = calls p0
  /\ network (world p) = network (world p0).

(** The request [getVideoInfo] issues for an input. *)
Definition info_request (input : string) : Request :=
  mkRequest (API_URL ++ "/api/video-info") {[ "url" := VStr (trim input) ]}.

(** *** Sample data *)

Definition sample_entry (n : nat) : JsObject :=
  <["url" := VStr ("https://example.com/v" +:+ pretty n)]>
  (<["downloadedAt" := VStr "2024-01-01T00:00:00.000Z"]> ∅).

(** A log at capacity, newest first. *)
Definition sample_log : list JsObject := sample_entry <$> seq 0 20.

Definition empty_world (st : AppState) : World :=
  {| app := st; storage := ∅; adapter := []; network := []; console := [];
     windows := [] |}.

(** The page right after mount, online, with an input typed in and settled. *)
Definition page_with (input : string) (history : list JsObject) (onLine : bool)
    : World :=
  setDownloadHistory history (setUrl input (empty_world (initialState onLine))).

(** ** Display helpers *)

Fixpoint string_repeat (n : nat) (c : ascii) : string :=
  match n with
  | O => EmptyString
  | S n' => String c (string_repeat n' c)
  end.

(** [s.padStart(target, c)] for a pad string of the single character [c]. *)
Definition padStart (target : nat) (c : ascii) (s : string) : string :=
  string_repeat (target - String.length s) c ++ s.

(** [formatDuration(seconds)] for a number of seconds: [Math.floor] of a
    quotient is [Z.div], [%] is the remainder that takes the sign of the
    dividend, [Z.rem]. *)
Definition formatDuration (seconds : Z) : string :=
  if negb (truthy (VNum seconds)) then "Unknown"
  else
    let hrs := (seconds / 3600)%Z in
    let mins := (Z.rem seconds 3600 / 60)%Z in
    let secs := Z.rem seconds 60 in
    if (0 <? hrs)%Z then
      pretty hrs ++ ":" ++ padStart 2 "0" (pretty mins)
      ++ ":" ++ padStart 2 "0" (pretty secs)
    else
      pretty mins ++ ":" ++ padStart 2 "0" (pretty secs).

(** Every character of the string is white space for [trim]. *)
Fixpoint all_white (s : string) : bool :=
  match s with
  | EmptyString => true
  | String c s' => is_white_space c && all_white s'
  end.

(** Every character of the string is a decimal digit. *)
Definition is_digit (c : ascii) : bool :=
  (48 <=? nat_of_ascii c)%nat && (nat_of_ascii c <=? 57)%nat.

Fixpoint all_digits (s : string) : bool :=
  match s with
  | EmptyString => true
  | String c s' => is_digit c && all_digits s'
  end.

(** Durations for which the integer arithmetic above is the arithmetic of
    the numbers of the page. *)
Definition displayable (seconds : Z) : Prop := (0 < seconds < 2 ^ 31)%Z.

(** The decimal digit [d], for [0 <= d < 10]. *)
Definition digit (d : Z) : ascii := ascii_of_nat (48 + Z.to_nat d).

(** [x] written with exactly two decimal digits, for [0 <= x < 100]. *)
Definition two_digits (x : Z) : string :=
  String (digit (x / 10)) (String (digit (x mod 10)) EmptyString).

(** ** What the page offers *)

(** The attributes that decide which handlers can run, read off the markup:
    [disabled] of the input and of the quality selector, [disabled] of the
    Preview button, the condition under which the Download button is
    rendered and its [disabled], and the condition under which Clear All is
    rendered. *)
Definition input_disabled (st : AppState) : bool := loading st.

Definition preview_disabled (st : AppState) : bool :=
  negb (nonempty (trim (url st))) || loadingInfo st || negb (isOnline st).

Definition download_rendered (st : AppState) : bool := truthy (videoInfo st).

Definition download_disabled (st : AppState) : bool :=
  loading st || negb (isOnline st).

Definition clear_rendered (st : AppState) : bool :=
  (0 <? length (downloadHistory st))%nat.

(** The page mounted again over the same store: the state cells start
    afresh, everything outside the component stays. *)
Definition remount (onLine : bool) (w : World) : World :=
  {| app := initialState onLine; storage := storage w; adapter := adapter w;
     network := network w; console := console w; windows := windows w |}.

(** ** Sessions *)

(** A request that is in flight, with what its continuation closed over:
    nothing of the render for [getVideoInfo], the render for
    [handleDownload]. *)
Inductive Pending : Type :=
  | PendingInfo
  | PendingDownload (r : AppState).

Record Session : Type := mkSession {
  page : World;
  inflight : list Pending
}.

(** What can happen to the page.  A control that is disabled or not
    rendered does not fire.  The write inside [saveToHistory] settles within
    the event that settles the download. *)
Inductive Event : Type :=
  | EvInput (v : string)          (* [onChange] of the input *)
  | EvQuality (q : Quality)       (* [onChange] of the quality selector *)
  | EvPreview                     (* click on Preview *)
  | EvDebounce                    (* the debounce timeout comes due *)
  | EvDownload                    (* click on Download *)
  | EvClear (io : AdapterResult)  (* click on Clear All, and its delete *)
  | EvLoad (io : AdapterResult)   (* the read of [loadHistory] settles *)
  | EvOnline (b : bool)           (* [online] / [offline] of the window *)
  | EvSettle (i : nat) (res : AxiosResult) (now : string) (io : AdapterResult).
                                  (* the request at position [i] settles *)

Definition start_info (s : Session) : Session :=
  match getVideoInfo_begin (app (page s)) (page s) with
  | Finished w' => mkSession w' (inflight s)
  | Awaiting w' => mkSession w' (inflight s ++ [PendingInfo])
  end.

Definition start_download (s : Session) : Session :=
  match handleDownload_begin (app (page s)) (page s) with
  | Finished w' => mkSession w' (inflight s)
  | Awaiting w' => mkSession w' (inflight s ++ [PendingDownload (app (page s))])
  end.

Definition step (e : Event) (s : Session) : Session :=
  let w := page s in
  let st := app w in
  match e with
  | EvInput v =>
      if input_disabled st then s else mkSession (setUrl v w) (inflight s)
  | EvQuality q =>
      if loading st then s else mkSession (setQuality q w) (inflight s)
  | EvPreview => if preview_disabled st then s else start_info s
  | EvDebounce => if preview_gate (url st) then start_info s else s
  | EvDownload =>
      if download_rendered st && negb (download_disabled st)
      then start_download s else s
  | EvClear io =>
      if clear_rendered st then mkSession (snd (clearHistory io w)) (inflight s)
      else s
  | EvLoad io => mkSession (loadHistory io w) (inflight s)
  | EvOnline b => mkSession (setIsOnline b w) (inflight s)
  | EvSettle i res now io =>
      match inflight s !! i with
      | Some PendingInfo =>
          mkSession (getVideoInfo_resume res w) (delete i (inflight s))
      | Some (PendingDownload r) =>
          mkSession (handleDownload_resume r res now io w) (delete i (inflight s))
      | None => s
      end
  end.

Fixpoint run (events : list Event) (s : Session) : Session :=
  match events with
  | [] => s
  | e :: rest => run rest (step e s)
  end.

(** The stored record, read as a log: no record is the empty log. *)
Definition stored_log (w : World) : list JsObject :=
  default [] (storage w !! "downloadHistory").

(** The page shows what is stored. *)
Definition synced (w : World) : Prop := downloadHistory (app w) = stored_log w.

(** A request the component can have issued: one of the two endpoints, with
    the trimmed, non-empty input as [url]. *)
Definition well_formed (q : Request) : Prop :=
  (endpoint q = API_URL ++ "/api/video-info"
   \/ endpoint q = API_URL ++ "/api/download")
  /\ exists input,
       nonempty (trim input) = true /\ body q !! "url" = Some (VStr (trim input)).

Definition is_download (p : Pending) : bool :=
  match p with
  | PendingDownload _ => true
  | PendingInfo => false
  end.

(** The downloads in flight. *)
Definition downloads (s : Session) : list Pending := filter is_download (inflight s).

(** The request [handleDownload] issues in render [r]. *)
Definition download_request (r : AppState) : Request :=
  mkRequest (API_URL ++ "/api/download")
    (<["url" := VStr (trim (url r))]>
     (<["quality" := VStr (quality_value (quality r))]> ∅)).

(** The ways in which an event can touch the log and the store: not at all;
    a new log of at most 20 entries written to both; both emptied; the
    stored record loaded into the log. *)
Definition history_effect (w w' : World) : Prop :=
  (downloadHistory (app w') = downloadHistory (app w) /\ storage w' = storage w)
  \/ (exists nh,
        length nh <= 20 /\ downloadHistory (app w') = nh
        /\ storage w' = <["downloadHistory" := nh]> (storage w))
  \/ (downloadHistory (app w') = []
      /\ storage w' = delete "downloadHistory" (storage w))
  \/ (exists h,
        storage w !! "downloadHistory" = Some h
        /\ downloadHistory (app w') = h /\ storage w' = storage w).

(** The ways in which an event can touch the network: not at all; a
    metadata request for the input, from the timeout or from a click on
    Preview while online; a download request from a click while online. *)
Definition network_effect (e : Event) (w w' : World) : Prop :=
  network w' = network w
  \/ (network w' = (network w ++ [info_request (url (app w))])%list
      /\ nonempty (trim (url (app w))) = true
      /\ (e = EvDebounce \/ (e = EvPreview /\ isOnline (app w) = true)))
  \/ (network w' = (network w ++ [download_request (app w)])%list
      /\ nonempty (trim (url (app w))) = true
      /\ e = EvDownload /\ isOnline (app w) = true).

(** One download in flight exactly while [loading] is set. *)
Definition one_download (s : Session) : Prop :=
  length (downloads s) = if loading (app (page s)) then 1 else 0.

(** Input changes that follow one another by more than 500 ms, the first
    of them more than 500 ms after time [t]. *)
Fixpoint spaced (t : nat) (changes : list (nat * string)) : Prop :=
  match changes with
  | [] => True
  | (t', _) :: rest => t + 500 < t' /\ spaced t' rest
  end.

(** The calls of [getVideoInfo] that input changes left alone for 500 ms
    lead to: one for each value that passes the test, 500 ms after it. *)
Fixpoint fetched (changes : list (nat * string)) : list (nat * string) :=
  match changes with
  | [] => []
  | (t, v) :: rest =>
      if preview_gate v then (t + 500, v) :: fetched rest else fetched rest
  end.

(** The timeout set for input [v] at time [t] is pending. *)
Definition armed (t : nat) (v : string) (p : Page) : Prop :=
  exists r,
    timer p = Some (t + 500, r) /\ url r = v /\ url (app (world p)) = v.

(** * Properties *)

(** ** The history log *)

Lemma newHistory_length h item now : length (newHistory h item now) <= 20.
Proof. unfold newHistory. rewrite length_take. lia. Qed.

Lemma newHistory_head h item now :
  head (newHistory h item now) = Some (stamp item now).
Proof. reflexivity. Qed.

Lemma newHistory_below_capacity h item now :
  length h < 20 -> newHistory h item now = stamp item now :: h.
Proof.
  intros Hlt. unfold newHistory. apply take_ge. simpl. lia.
Qed.

(** At capacity the log splits into the entries kept and the single oldest
    one, which is the only one dropped. *)
Lemma newHistory_at_capacity h item now :
  length h = 20 ->
  exists kept oldest,
    h = (kept ++ [oldest])%list /\ newHistory h item now = stamp item now :: kept.
Proof.
  intros Hlen.
  assert (Hdrop : length (drop 19 h) = 1) by (rewrite length_drop; lia).
  destruct (drop 19 h) as [|oldest [|? ?]] eqn:Hd; simpl in Hdrop; try lia.
  exists (take 19 h), oldest. split.
  - rewrite <- Hd. symmetry. apply take_drop.
  - reflexivity.
Qed.

Lemma saveToHistory_written r item now w :
  downloadHistory (app (snd (saveToHistory r item now AdapterOk w)))
  = newHistory (downloadHistory r) item now.
Proof. reflexivity. Qed.

Lemma saveToHistory_rejected r item now error w :
  downloadHistory (app (snd (saveToHistory r item now (AdapterFail error) w)))
  = downloadHistory (app w).
Proof. reflexivity. Qed.

Lemma append_bounded op w : bounded w \/ written op -> bounded (append op w).
Proof.
  destruct op as [[item now] io]. unfold bounded, written, append. simpl.
  destruct io as [|error]; simpl.
  - intros _. exact (newHistory_length (downloadHistory (app w)) item now).
  - intros [Hb | Hw]; [exact Hb | discriminate Hw].
Qed.

Lemma history_trace_bounded ops : forall w,
  bounded w \/ Forall written ops -> Forall bounded (history_trace ops w).
Proof.
  induction ops as [|op rest IH]; intros w Hinv; simpl.
  - constructor.
  - assert (Hstep : bounded (append op w)).
    { apply append_bounded. destruct Hinv as [Hb | Hall]; [now left|].
      right. now inversion Hall. }
    constructor; [exact Hstep|]. apply IH. now left.
Qed.

(** C1.  The history log never exceeds 20 entries.  After each append of any
    sequence the in-memory log holds at most 20 entries: from any log at all
    when the appends are written to the store, and from a log within the
    bound whatever happens to the writes (a rejected write leaves the log as
    it was); a written append gives at most 20 entries also when it was
    created in an earlier render.  An append on a log of exactly 20 entries drops exactly its
    last, oldest entry; the 19 others follow the new entry in their order. *)
Theorem history_capacity :
  (forall ops w, Forall written ops -> Forall bounded (history_trace ops w))
  /\ (forall ops w, bounded w -> Forall bounded (history_trace ops w))
  /\ (forall r item now w, bounded (snd (saveToHistory r item now AdapterOk w)))
  /\ (forall item now w,
        length (downloadHistory (app w)) = 20 ->
        exists kept oldest,
          downloadHistory (app w) = (kept ++ [oldest])%list
          /\ downloadHistory (app (append (item, now, AdapterOk) w))
             = stamp item now :: kept
          /\ length (downloadHistory (app (append (item, now, AdapterOk) w))) = 20).
Proof.
  split; [|split; [|split]].
  - intros ops w Hall. apply history_trace_bounded. now right.
  - intros ops w Hb. apply history_trace_bounded. now left.
  - intros r item now w. exact (newHistory_length (downloadHistory r) item now).
  - intros item now w Hlen.
    destruct (newHistory_at_capacity (downloadHistory (app w)) item now Hlen)
      as (kept & oldest & Hsplit & Hnew).
    exists kept, oldest. unfold append. rewrite saveToHistory_written.
    split; [exact Hsplit|]. split; [exact Hnew|].
    rewrite Hnew. rewrite Hsplit in Hlen. rewrite length_app in Hlen.
    simpl in *. lia.
Qed.

Lemma history_capacity_witness :
  Forall bounded
    (history_trace [(sample_entry 20, "2024-01-02T00:00:00.000Z", AdapterOk)]
       (page_with "" sample_log true))
  /\ exists kept oldest,
       downloadHistory (app (page_with "" sample_log true))
       = (kept ++ [oldest])%list
       /\ downloadHistory
            (app (append (sample_entry 20, "2024-01-02T00:00:00.000Z", AdapterOk)
                    (page_with "" sample_log true)))
          = stamp (sample_entry 20) "2024-01-02T00:00:00.000Z" :: kept
       /\ length
            (downloadHistory
               (app (append (sample_entry 20, "2024-01-02T00:00:00.000Z", AdapterOk)
                       (page_with "" sample_log true)))) = 20.
Proof.
  split.
  - apply (proj1 history_capacity). repeat constructor.
  - apply (proj2 (proj2 (proj2 history_capacity))). reflexivity.
Defined.

(** ** A successful download *)

Lemma history_item_url r data :
  history_item r data !! "url" = Some (VStr (trim (url r))).
Proof. unfold history_item. by simplify_map_eq. Qed.

Lemma history_item_title r data :
  history_item r data !! "title" = Some (get data "title").
Proof. unfold history_item. by simplify_map_eq. Qed.

Lemma history_item_quality r data :
  history_item r data !! "quality" = Some (VStr (quality_value (quality r))).
Proof. unfold history_item. by simplify_map_eq. Qed.

Lemma stamp_downloadedAt item now :
  stamp item now !! "downloadedAt" = Some (VStr now).
Proof. unfold stamp. apply lookup_insert_eq. Qed.

Lemma stamp_other item now k :
  k <> "downloadedAt" -> stamp item now !! k = item !! k.
Proof. intros Hk. unfold stamp. by rewrite lookup_insert_ne. Qed.

Lemma handleDownload_admitted r w :
  nonempty (trim (url r)) = true -> isOnline r = true ->
  handleDownload_begin r w = Awaiting (download_pending r w).
Proof.
  intros Hurl Hon. unfold handleDownload_begin. rewrite Hurl, Hon. reflexivity.
Qed.

Lemma handleDownload_success r data now io w :
  nonempty (trim (url r)) = true -> isOnline r = true ->
  truthy (get data "success") = true ->
  handleDownload r (Fulfilled data) now io w
  = setLoading false
      (setVideoInfo VNull
         (setUrl ""
            (setMessage
               (mkMessage "success"
                  (VStr "Download started! Check your downloads folder."))
               (snd (saveToHistory r (history_item r data) now io
                       (window_open
                          (API_URL ++ to_string (get data "download_url"))
                          (download_pending r w))))))).
Proof.
  intros Hurl Hon Hok. unfold handleDownload.
  rewrite (handleDownload_admitted r w Hurl Hon).
  unfold handleDownload_resume. rewrite Hok.
  destruct io; reflexivity.
Qed.

Lemma handleDownload_success_adapter r data now io w :
  nonempty (trim (url r)) = true -> isOnline r = true ->
  truthy (get data "success") = true ->
  adapter (handleDownload r (Fulfilled data) now io w)
  = (adapter w
     ++ [SetItem "downloadHistory"
           (newHistory (downloadHistory r) (history_item r data) now)])%list.
Proof.
  intros Hurl Hon Hok. rewrite handleDownload_success by assumption.
  destruct io; reflexivity.
Qed.

Lemma handleDownload_success_written r data now w :
  nonempty (trim (url r)) = true -> isOnline r = true ->
  truthy (get data "success") = true ->
  let w' := handleDownload r (Fulfilled data) now AdapterOk w in
  downloadHistory (app w')
  = newHistory (downloadHistory r) (history_item r data) now
  /\ storage w' !! "downloadHistory"
     = Some (newHistory (downloadHistory r) (history_item r data) now).
Proof.
  intros Hurl Hon Hok w'. subst w'. rewrite handleDownload_success by assumption.
  split; [reflexivity|]. apply lookup_insert_eq.
Qed.

(** C2.  A download that was admitted and answered with a truthy [success]
    hands the adapter a new log whose head entry carries the trimmed input as
    [url], the [title] of the response, the quality selected in the render
    that submitted, and as [downloadedAt] the clock reading taken by
    [saveToHistory]; the stamp replaces whatever [downloadedAt] the record
    handed in may carry.  When the write succeeds this new log is the
    in-memory log and the stored record. *)
Theorem download_success_head_entry r data now io w :
  nonempty (trim (url r)) = true -> isOnline r = true ->
  truthy (get data "success") = true ->
  let w' := handleDownload r (Fulfilled data) now io w in
  exists nh entry,
    last (adapter w') = Some (SetItem "downloadHistory" nh)
    /\ head nh = Some entry
    /\ entry !! "url" = Some (VStr (trim (url r)))
    /\ entry !! "title" = Some (get data "title")
    /\ entry !! "quality" = Some (VStr (quality_value (quality r)))
    /\ entry !! "downloadedAt" = Some (VStr now)
    /\ (forall h item,
          exists stamped,
            head (newHistory h item now) = Some stamped
            /\ stamped !! "downloadedAt" = Some (VStr now))
    /\ (io = AdapterOk ->
        downloadHistory (app w') = nh
        /\ storage w' !! "downloadHistory" = Some nh).
Proof.
  intros Hurl Hon Hok w'.
  exists (newHistory (downloadHistory r) (history_item r data) now),
         (stamp (history_item r data) now).
  split.
  { subst w'. rewrite handleDownload_success_adapter by assumption.
    apply last_snoc. }
  split; [apply newHistory_head|].
  split; [rewrite stamp_other by discriminate; apply history_item_url|].
  split; [rewrite stamp_other by discriminate; apply history_item_title|].
  split; [rewrite stamp_other by discriminate; apply history_item_quality|].
  split; [apply stamp_downloadedAt|].
  split.
  - intros h item. exists (stamp item now).
    split; [apply newHistory_head | apply stamp_downloadedAt].
  - intros ->. subst w'. now apply handleDownload_success_written.
Qed.

Lemma download_success_head_entry_witness :
  let w := setQuality high (page_with " https://example.com/v1 " [] true) in
  let data : JsObject :=
    <["success" := VBool true]> (<["title" := VStr "Cat video"]> ∅) in
  let w' :=
    handleDownload (app w) (Fulfilled data) "2024-01-02T00:00:00.000Z"
      AdapterOk w in
  exists nh entry,
    last (adapter w') = Some (SetItem "downloadHistory" nh)
    /\ head nh = Some entry
    /\ entry !! "url" = Some (VStr "https://example.com/v1")
    /\ entry !! "title" = Some (VStr "Cat video")
    /\ entry !! "quality" = Some (VStr "high")
    /\ entry !! "downloadedAt" = Some (VStr "2024-01-02T00:00:00.000Z")
    /\ (forall h item,
          exists stamped,
            head (newHistory h item "2024-01-02T00:00:00.000Z") = Some stamped
            /\ stamped !! "downloadedAt" = Some (VStr "2024-01-02T00:00:00.000Z"))
    /\ (AdapterOk = AdapterOk ->
        downloadHistory (app w') = nh
        /\ storage w' !! "downloadHistory" = Some nh).
Proof.
  intros w data w'.
  apply (download_success_head_entry (app w) data "2024-01-02T00:00:00.000Z"
           AdapterOk w); reflexivity.
Defined.

Lemma handleDownload_failed_frame r res now io w :
  failed res ->
  exists m l,
    app (handleDownload r res now io w)
    = mkAppState (url (app w)) (quality (app w)) l (loadingInfo (app w)) m
        (videoInfo (app w)) (downloadHistory (app w)) (isOnline (app w))
    /\ storage (handleDownload r res now io w) = storage w
    /\ adapter (handleDownload r res now io w) = adapter w
    /\ windows (handleDownload r res now io w) = windows w.
Proof.
  intros Hfail. unfold handleDownload, handleDownload_begin.
  destruct (nonempty (trim (url r))); simpl.
  - destruct (isOnline r); simpl.
    + destruct res as [data | error]; simpl in Hfail.
      * unfold handleDownload_resume. rewrite Hfail. eauto 10.
      * eauto 10.
    + eauto 10.
  - eauto 10.
Qed.

(** C10.  A download answered with a truthy [success] ends with the input
    emptied and the preview cleared.  A download that fails, by a response
    whose [success] is falsy or by a rejected request, ends with every state
    cell except [message] and [loading] as it was, the input and the preview
    among them, and touches neither the store nor the windows. *)
Theorem download_resets_input_on_success_only :
  (forall r data now io w,
     nonempty (trim (url r)) = true -> isOnline r = true ->
     truthy (get data "success") = true ->
     let w' := handleDownload r (Fulfilled data) now io w in
     url (app w') = "" /\ videoInfo (app w') = VNull)
  /\ (forall r res now io w,
        failed res ->
        let w' := handleDownload r res now io w in
        url (app w') = url (app w)
        /\ videoInfo (app w') = videoInfo (app w)
        /\ quality (app w') = quality (app w)
        /\ loadingInfo (app w') = loadingInfo (app w)
        /\ downloadHistory (app w') = downloadHistory (app w)
        /\ isOnline (app w') = isOnline (app w)
        /\ storage w' = storage w
        /\ adapter w' = adapter w
        /\ windows w' = windows w).
Proof.
  split.
  - intros r data now io w Hurl Hon Hok w'. subst w'.
    rewrite handleDownload_success by assumption. split; reflexivity.
  - intros r res now io w Hfail w'. subst w'.
    destruct (handleDownload_failed_frame r res now io w Hfail)
      as (m & l & -> & Hs & Ha & Hw).
    repeat split; assumption.
Qed.

Lemma download_resets_input_on_success_only_witness :
  let w := page_with "https://example.com/v1" [] true in
  (url (app (handleDownload (app w)
               (Fulfilled (<["success" := VBool true]> ∅)) "now" AdapterOk w))
   = ""
   /\ videoInfo (app (handleDownload (app w)
                        (Fulfilled (<["success" := VBool true]> ∅)) "now"
                        AdapterOk w))
      = VNull)
  /\ url (app (handleDownload (app w)
                 (Fulfilled (<["success" := VBool false]> ∅)) "now" AdapterOk w))
     = "https://example.com/v1".
Proof.
  intros w. split.
  - apply (proj1 download_resets_input_on_success_only); reflexivity.
  - apply (proj2 download_resets_input_on_success_only (app w)
             (Fulfilled (<["success" := VBool false]> ∅)) "now" AdapterOk w).
    reflexivity.
Defined.

(** ** Admission checks *)

Lemma nonempty_false s : s = "" -> nonempty s = false.
Proof. intros ->. reflexivity. Qed.

Lemma nonempty_true s : s <> "" -> nonempty s = true.
Proof.
  intros Hs. unfold nonempty. destruct (String.eqb_spec s ""); [contradiction|reflexivity].
Qed.

(** C3, as the code has it.  With an input that trims to the empty string
    [getVideoInfo] returns at its guard: no request is issued and nothing of
    the state changes, the message included. *)
Theorem blank_fetch_is_silent r res w :
  trim (url r) = "" ->
  getVideoInfo_begin r w = Finished w /\ getVideoInfo r res w = w.
Proof.
  intros Hblank. unfold getVideoInfo, getVideoInfo_begin.
  rewrite (nonempty_false _ Hblank). split; reflexivity.
Qed.

Lemma blank_fetch_is_silent_witness :
  let w := page_with "   " [] true in
  getVideoInfo_begin (app w) w = Finished w
  /\ getVideoInfo (app w) (Fulfilled ∅) w = w.
Proof.
  intros w. apply (blank_fetch_is_silent (app w) (Fulfilled ∅) w). reflexivity.
Defined.

(** C3 as stated does not hold: for the input of three spaces no request is
    issued, but no failure is shown either; the message stays the empty one
    of the mount. *)
Lemma blank_fetch_shows_no_failure :
  let w := page_with "   " [] true in
  trim (url (app w)) = ""
  /\ message (app (getVideoInfo (app w) (Fulfilled ∅) w)) = mkMessage "" (VStr "")
  /\ ~ (network (getVideoInfo (app w) (Fulfilled ∅) w) = network w
        /\ shows_error (getVideoInfo (app w) (Fulfilled ∅) w)).
Proof.
  intros w. split; [reflexivity|]. split; [reflexivity|].
  intros [_ [Htype _]]. discriminate Htype.
Qed.

(** C4, as the code has it.  Offline, [handleDownload] returns at one of its
    two checks without a request and with nothing changed but the message:
    the offline message when the input trims to something, the message that
    asks for a URL when it trims to nothing, since that check comes first. *)
Theorem offline_download_is_refused r res now io w :
  isOnline r = false ->
  let w' := handleDownload r res now io w in
  w' = setMessage
         (if nonempty (trim (url r)) then offline_message else enter_url_message) w
  /\ network w' = network w
  /\ shows_error w'.
Proof.
  intros Hoff w'. subst w'. unfold handleDownload, handleDownload_begin.
  rewrite Hoff. destruct (nonempty (trim (url r))); simpl.
  - repeat split; reflexivity.
  - repeat split; reflexivity.
Qed.

Lemma offline_download_is_refused_witness :
  let w := page_with "https://example.com/v1" [] false in
  let w' := handleDownload (app w) (Fulfilled ∅) "now" AdapterOk w in
  w' = setMessage offline_message w /\ network w' = network w /\ shows_error w'.
Proof.
  intros w.
  apply (offline_download_is_refused (app w) (Fulfilled ∅) "now" AdapterOk w).
  reflexivity.
Defined.

(** C4 as stated does not hold: offline and with an empty input the failure
    returned is the one of the empty input, not the offline one. *)
Lemma offline_empty_input_is_not_admission_failure :
  let w := page_with "" [] false in
  isOnline (app w) = false
  /\ message (app (handleDownload (app w) (Fulfilled ∅) "now" AdapterOk w))
     = enter_url_message
  /\ message (app (handleDownload (app w) (Fulfilled ∅) "now" AdapterOk w))
     <> offline_message.
Proof.
  intros w. split; [reflexivity|]. split; [reflexivity|]. discriminate.
Qed.

(** ** Failure texts *)

Lemma js_or_truthy a b : truthy a = true -> js_or a b = a.
Proof. intros Ha. unfold js_or. now rewrite Ha. Qed.

Lemma js_or_falsy a b : truthy a = false -> js_or a b = b.
Proof. intros Ha. unfold js_or. now rewrite Ha. Qed.

Lemma surfaced_info_fulfilled data w :
  truthy (get data "success") = false ->
  surfaced_info (Fulfilled data) w
  = js_or (get data "error") (VStr "Failed to get video info").
Proof.
  intros Hfail. unfold surfaced_info, getVideoInfo_resume. now rewrite Hfail.
Qed.

Lemma surfaced_info_rejected error w :
  surfaced_info (Rejected error) w
  = js_or (js_or (detail error) (error_message error))
      (VStr "Failed to connect to server").
Proof. reflexivity. Qed.

Lemma surfaced_download_fulfilled r data now io w :
  truthy (get data "success") = false ->
  surfaced_download r (Fulfilled data) now io w
  = js_or (get data "error") (VStr "Download failed").
Proof.
  intros Hfail. unfold surfaced_download, handleDownload_resume. now rewrite Hfail.
Qed.

Lemma surfaced_download_rejected r error now io w :
  surfaced_download r (Rejected error) now io w
  = js_or (js_or (detail error) (error_message error))
      (VStr "Failed to download video").
Proof. reflexivity. Qed.

(** C5, as the code has it.  For both operations: a response whose [success]
    is falsy surfaces its [error] when that is truthy (a non-empty string),
    and the first fallback of the operation otherwise; a rejected request
    surfaces the [detail] of the response body when that is truthy, else the
    [message] of the error when that is truthy, and only then the second
    fallback of the operation. *)
Theorem failure_text_tiers :
  (forall data w r now io,
     truthy (get data "success") = false ->
     (truthy (get data "error") = true ->
      surfaced_info (Fulfilled data) w = get data "error"
      /\ surfaced_download r (Fulfilled data) now io w = get data "error")
     /\ (truthy (get data "error") = false ->
         surfaced_info (Fulfilled data) w = VStr "Failed to get video info"
         /\ surfaced_download r (Fulfilled data) now io w = VStr "Download failed"))
  /\ (forall error w r now io,
        (truthy (detail error) = true ->
         surfaced_info (Rejected error) w = detail error
         /\ surfaced_download r (Rejected error) now io w = detail error)
        /\ (truthy (detail error) = false ->
            truthy (error_message error) = true ->
            surfaced_info (Rejected error) w = error_message error
            /\ surfaced_download r (Rejected error) now io w = error_message error)
        /\ (truthy (detail error) = false ->
            truthy (error_message error) = false ->
            surfaced_info (Rejected error) w = VStr "Failed to connect to server"
            /\ surfaced_download r (Rejected error) now io w
               = VStr "Failed to download video")).
Proof.
  split.
  - intros data w r now io Hfail.
    rewrite surfaced_info_fulfilled, surfaced_download_fulfilled by assumption.
    split; intros He.
    + now rewrite !js_or_truthy.
    + now rewrite !js_or_falsy.
  - intros error w r now io.
    rewrite surfaced_info_rejected, surfaced_download_rejected.
    split; [|split].
    + intros Hd. rewrite (js_or_truthy (detail error)) by assumption.
      now rewrite !js_or_truthy.
    + intros Hd Hm. rewrite (js_or_falsy (detail error)) by assumption.
      now rewrite !js_or_truthy.
    + intros Hd Hm. rewrite (js_or_falsy (detail error)) by assumption.
      now rewrite !js_or_falsy.
Qed.

Lemma failure_text_tiers_witness :
  let w := page_with "https://example.com/v1" [] true in
  let refused : JsObject :=
    <["success" := VBool false]> (<["error" := VStr "X"]> ∅) in
  let unprocessable :=
    mkJsError (Some (VObj (<["detail" := VStr "Y"]> ∅)))
      (VStr "Request failed with status code 422") in
  (surfaced_info (Fulfilled refused) w = VStr "X"
   /\ surfaced_download (app w) (Fulfilled refused) "now" AdapterOk w = VStr "X")
  /\ (surfaced_info (Rejected unprocessable) w = VStr "Y"
      /\ surfaced_download (app w) (Rejected unprocessable) "now" AdapterOk w
         = VStr "Y").
Proof.
  intros w refused unprocessable. split.
  - apply (proj1 failure_text_tiers refused w (app w) "now" AdapterOk);
      reflexivity.
  - apply (proj2 failure_text_tiers unprocessable w (app w) "now" AdapterOk).
    reflexivity.
Defined.

(** C5 as stated does not hold: a request rejected with status 500 and a
    body that has neither [error] nor [detail] surfaces the message of the
    error, not the fallback of the operation. *)
Lemma status_500_surfaces_error_message :
  let w := page_with "https://example.com/v1" [] true in
  let failure :=
    mkJsError (Some (VObj ∅)) (VStr "Request failed with status code 500") in
  detail failure = VUndef
  /\ opt_get (VObj ∅) "error" = VUndef
  /\ surfaced_info (Rejected failure) w
     = VStr "Request failed with status code 500"
  /\ surfaced_info (Rejected failure) w <> VStr "Failed to connect to server"
  /\ surfaced_download (app w) (Rejected failure) "now" AdapterOk w
     = VStr "Request failed with status code 500"
  /\ surfaced_download (app w) (Rejected failure) "now" AdapterOk w
     <> VStr "Failed to download video".
Proof.
  intros w failure. repeat split; try reflexivity; discriminate.
Qed.

(** ** Persistence failures *)

(** C6, as the code has it.  [saveToHistory] makes one write.  When the
    write succeeds the stored record and the in-memory log are both the new
    log, headed by the stamped entry.  When it is rejected, the in-memory
    log and the store stay as they were and the error goes to the console;
    the promise is fulfilled with [undefined] exactly as on success, so the
    caller is told nothing. *)
Theorem saveToHistory_outcomes r item now w :
  (let '(c, w') := saveToHistory r item now AdapterOk w in
   c = Resolved VUndef
   /\ adapter w'
      = (adapter w
         ++ [SetItem "downloadHistory" (newHistory (downloadHistory r) item now)])%list
   /\ storage w' !! "downloadHistory"
      = Some (newHistory (downloadHistory r) item now)
   /\ downloadHistory (app w') = newHistory (downloadHistory r) item now
   /\ head (downloadHistory (app w')) = Some (stamp item now)
   /\ console w' = console w)
  /\ (forall error,
        let '(c, w') := saveToHistory r item now (AdapterFail error) w in
        c = Resolved VUndef
        /\ ~ informs_caller c
        /\ adapter w'
           = (adapter w
              ++ [SetItem "downloadHistory"
                    (newHistory (downloadHistory r) item now)])%list
        /\ storage w' = storage w
        /\ app w' = app w
        /\ console w'
           = (console w
              ++ [("Failed to save history:", error_message error)])%list).
Proof.
  split.
  - simpl. repeat split; try reflexivity. apply lookup_insert_eq.
  - intros error. simpl. repeat split; try reflexivity.
    intros Hinf. now apply Hinf.
Qed.

(** C6 as stated does not hold: with the write rejected, [saveToHistory]
    settles as on success, and [handleDownload] goes on to report success
    while the log stays empty. *)
Lemma rejected_write_is_not_reported :
  let w := page_with "https://example.com/v1" [] true in
  let quota := mkJsError None (VStr "QuotaExceededError") in
  let ok : JsObject := <["success" := VBool true]> ∅ in
  ~ informs_caller
      (fst (saveToHistory (app w) (history_item (app w) ok) "now"
              (AdapterFail quota) w))
  /\ fst (saveToHistory (app w) (history_item (app w) ok) "now"
            (AdapterFail quota) w)
     = fst (saveToHistory (app w) (history_item (app w) ok) "now" AdapterOk w)
  /\ message (app (handleDownload (app w) (Fulfilled ok) "now"
                     (AdapterFail quota) w))
     = mkMessage "success" (VStr "Download started! Check your downloads folder.")
  /\ downloadHistory (app (handleDownload (app w) (Fulfilled ok) "now"
                             (AdapterFail quota) w)) = [].
Proof.
  intros w quota ok. split.
  - simpl. intros Hinf. now apply Hinf.
  - repeat split; reflexivity.
Qed.

(** C7, as the code has it.  [clearHistory] makes exactly one delete on the
    adapter and never raises.  When the delete succeeds, the stored record
    is gone and the in-memory log is empty.  When the delete is rejected,
    the error goes to the console and the state, the in-memory log included,
    stays as it was. *)
Theorem clearHistory_outcomes w :
  (let '(c, w') := clearHistory AdapterOk w in
   c = Resolved VUndef
   /\ adapter w' = (adapter w ++ [RemoveItem "downloadHistory"])%list
   /\ storage w' !! "downloadHistory" = None
   /\ downloadHistory (app w') = []
   /\ console w' = console w)
  /\ (forall error,
        let '(c, w') := clearHistory (AdapterFail error) w in
        c = Resolved VUndef
        /\ adapter w' = (adapter w ++ [RemoveItem "downloadHistory"])%list
        /\ storage w' = storage w
        /\ app w' = app w
        /\ console w'
           = (console w
              ++ [("Failed to clear history:", error_message error)])%list).
Proof.
  split.
  - simpl. repeat split; try reflexivity. apply lookup_delete_eq.
  - intros error. simpl. repeat split; reflexivity.
Qed.

(** C7 as stated does not hold: when the delete is rejected, the log that
    was shown is still shown. *)
Lemma rejected_delete_keeps_log :
  let w := page_with "" [sample_entry 0] true in
  let blocked := mkJsError None (VStr "InvalidStateError") in
  fst (clearHistory (AdapterFail blocked) w) = Resolved VUndef
  /\ downloadHistory (app (snd (clearHistory (AdapterFail blocked) w)))
     = [sample_entry 0]
  /\ downloadHistory (app (snd (clearHistory (AdapterFail blocked) w))) <> [].
Proof.
  intros w blocked. repeat split; try reflexivity. discriminate.
Qed.

(** ** Overlapping metadata fetches *)

Lemma getVideoInfo_resume_success data w :
  truthy (get data "success") = true ->
  app (getVideoInfo_resume (Fulfilled data) w)
  = mkAppState (url (app w)) (quality (app w)) (loading (app w)) false
      (message (app w)) (get data "data") (downloadHistory (app w))
      (isOnline (app w)).
Proof. intros Hok. unfold getVideoInfo_resume. now rewrite Hok. Qed.

Lemma getVideoInfo_resume_failure res w :
  failed res ->
  app (getVideoInfo_resume res w)
  = mkAppState (url (app w)) (quality (app w)) (loading (app w)) false
      (mkMessage "error" (surfaced_info res w)) (videoInfo (app w))
      (downloadHistory (app w)) (isOnline (app w)).
Proof.
  intros Hfail. unfold surfaced_info, getVideoInfo_resume.
  destruct res as [data | error]; simpl in Hfail; [now rewrite Hfail | reflexivity].
Qed.

(** C9, as the code has it.  Nothing suppresses a stale result.  When two
    fetches overlap and the newer one settles first, the older one is still
    applied when it settles: on success [videoInfo] becomes the data of the
    older response, on failure [message] becomes the failure text of the
    older response.  The state follows the order of completion. *)
Theorem fetch_results_apply_in_completion_order r1 r2 res1 res2 w :
  trim (url r1) <> "" -> trim (url r2) <> "" ->
  exists w3 w4,
    overlapping_fetches r1 r2 res1 res2 w = Some (w3, w4)
    /\ loadingInfo (app w4) = false
    /\ (forall older,
          res1 = Fulfilled older -> truthy (get older "success") = true ->
          videoInfo (app w4) = get older "data"
          /\ message (app w4) = message (app w3))
    /\ (failed res1 ->
        message (app w4) = mkMessage "error" (surfaced_info res1 w3)
        /\ videoInfo (app w4) = videoInfo (app w3)).
Proof.
  intros H1 H2. unfold overlapping_fetches, getVideoInfo_begin.
  rewrite (nonempty_true _ H1), (nonempty_true _ H2). simpl.
  eexists _, _. split; [reflexivity|]. split; [reflexivity|]. split.
  - intros older -> Hok. now rewrite getVideoInfo_resume_success.
  - intros Hfail. now rewrite getVideoInfo_resume_failure.
Qed.

Lemma fetch_results_apply_in_completion_order_witness :
  let w := page_with "https://example.com/a" [] true in
  let r1 := app w in
  let r2 := app (setUrl "https://example.com/ab" w) in
  let first : JsObject :=
    <["success" := VBool true]>
    (<["data" := VObj (<["title" := VStr "A"]> ∅)]> ∅) in
  let second : JsObject :=
    <["success" := VBool true]>
    (<["data" := VObj (<["title" := VStr "AB"]> ∅)]> ∅) in
  exists w3 w4,
    overlapping_fetches r1 r2 (Fulfilled first) (Fulfilled second) w
    = Some (w3, w4)
    /\ loadingInfo (app w4) = false
    /\ (forall older,
          Fulfilled first = Fulfilled older ->
          truthy (get older "success") = true ->
          videoInfo (app w4) = get older "data"
          /\ message (app w4) = message (app w3))
    /\ (failed (Fulfilled first) ->
        message (app w4) = mkMessage "error" (surfaced_info (Fulfilled first) w3)
        /\ videoInfo (app w4) = videoInfo (app w3)).
Proof.
  intros w r1 r2 first second.
  apply (fetch_results_apply_in_completion_order r1 r2 (Fulfilled first)
           (Fulfilled second) w); discriminate.
Defined.

(** C9 as stated does not hold: the fetch for the longer input settles
    first and its preview is shown; then the superseded fetch settles and
    its preview replaces the newer one. *)
Lemma superseded_fetch_overwrites_preview :
  let w := page_with "https://example.com/a" [] true in
  let r1 := app w in
  let r2 := app (setUrl "https://example.com/ab" w) in
  let first : JsObject :=
    <["success" := VBool true]>
    (<["data" := VObj (<["title" := VStr "A"]> ∅)]> ∅) in
  let second : JsObject :=
    <["success" := VBool true]>
    (<["data" := VObj (<["title" := VStr "AB"]> ∅)]> ∅) in
  exists w3 w4,
    overlapping_fetches r1 r2 (Fulfilled first) (Fulfilled second) w
    = Some (w3, w4)
    /\ opt_get (videoInfo (app w3)) "title" = VStr "AB"
    /\ opt_get (videoInfo (app w4)) "title" = VStr "A"
    /\ videoInfo (app w4) <> videoInfo (app w3).
Proof.
  intros w r1 r2 first second. eexists _, _.
  split; [reflexivity|]. split; [reflexivity|]. split; [reflexivity|].
  intros Heq. apply (f_equal (fun v => opt_get v "title")) in Heq.
  vm_compute in Heq. discriminate Heq.
Qed.

(** ** Debounce *)

Section Debounce.

(** The page before the burst of input changes. *)
Variable p0 : Page.

Lemma advance_quiet t p : quiet_at t p -> advance t p = p.
Proof.
  unfold quiet_at, advance. destruct (timer p) as [[due r]|]; [|reflexivity].
  intros Hlt. destruct (Nat.leb_spec due t); [lia | reflexivity].
Qed.

Lemma onChange_settles t v p :
  quiet_at t p -> v <> url (app (world p)) ->
  calls p = calls p0 -> network (world p) = network (world p0) ->
  settled_on t v p0 (onChange t v p).
Proof.
  intros Hq Hv Hc Hn. unfold onChange. rewrite (advance_quiet t p Hq).
  destruct (String.eqb_spec (url (app (world p))) v) as [Heq | _].
  - now subst v.
  - repeat split; assumption.
Qed.

Lemma settled_quiet t v p t' :
  settled_on t v p0 p -> t' < t + 500 -> quiet_at t' p.
Proof. intros (Ht & _) Hlt. unfold quiet_at. now rewrite Ht. Qed.

Lemma typing_settles rest : forall t v p,
  settled_on t v p0 p -> rapid t rest -> each_differs v rest ->
  settled_on (fst (last_change (t, v) rest)) (snd (last_change (t, v) rest))
    p0 (typing rest p).
Proof.
  induction rest as [|[t' v'] rest IH]; intros t v p Hs Hr Hd; simpl.
  - exact Hs.
  - destruct Hr as (_ & Hlt & Hr). destruct Hd as (Hne & Hd).
    apply IH; [|assumption|assumption].
    destruct Hs as (Ht & Hu & Hc & Hn).
    apply onChange_settles; try assumption.
    + unfold quiet_at. now rewrite Ht.
    + now rewrite Hu.
Qed.

Lemma advance_fires t v p T :
  settled_on t v p0 p -> t + 500 <= T ->
  timer (advance T p) = None
  /\ calls (advance T p)
     = (calls p0 ++ if preview_gate v then [(t + 500, v)] else [])%list
  /\ network (world (advance T p))
     = (network (world p0) ++ if preview_gate v then [info_request v] else [])%list.
Proof.
  intros (Ht & Hu & Hc & Hn) Hle. unfold advance. rewrite Ht.
  destruct (Nat.leb_spec (t + 500) T); [|lia].
  unfold timer_callback. rewrite Hu.
  destruct (preview_gate v) eqn:Hg; simpl.
  - rewrite Hc. split; [reflexivity|]. split; [reflexivity|].
    unfold getVideoInfo_begin. rewrite Hu.
    apply andb_true_iff in Hg as [Hne _]. rewrite Hne. simpl.
    now rewrite Hn.
  - rewrite Hc, Hn, !app_nil_r. repeat split; reflexivity.
Qed.

Lemma advance_calls T p :
  calls (advance T p) = calls p
  \/ exists due r,
       timer p = Some (due, r) /\ due <= T /\ preview_gate (url r) = true
       /\ calls (advance T p) = (calls p ++ [(due, url r)])%list.
Proof.
  unfold advance. destruct (timer p) as [[due r]|] eqn:Ht; [|now left].
  destruct (Nat.leb_spec due T) as [Hle | _]; [|now left].
  unfold timer_callback. destruct (preview_gate (url r)) eqn:Hg; [|now left].
  right. exists due, r. repeat split; assumption || reflexivity.
Qed.

Lemma onChange_restarts t v p :
  v <> url (app (world (advance t p))) ->
  exists r, timer (onChange t v p) = Some (t + 500, r) /\ url r = v
            /\ calls (onChange t v p) = calls (advance t p).
Proof.
  intros Hv. unfold onChange.
  destruct (String.eqb_spec (url (app (world (advance t p)))) v) as [Heq | _].
  - now subst v.
  - eexists. repeat split; reflexivity.
Qed.

End Debounce.

(** C8.  The debounce policy.  Every change of the input replaces the
    pending timeout by one due 500 ms later, and [getVideoInfo] is called by
    nothing but a timeout that has come due, for an input that trims to
    something and contains [http].  So input changes that follow one another
    by less than 500 ms, however many, lead to one run of the callback,
    500 ms after the last of them: it calls [getVideoInfo] once, for the
    value entered last, when that value passes the test, and not at all
    otherwise; until those 500 ms have passed nothing is fetched. *)
Theorem debounce_fetches_once_for_last_input :
  (forall t v p,
     v <> url (app (world (advance t p))) ->
     exists r, timer (onChange t v p) = Some (t + 500, r) /\ url r = v
               /\ calls (onChange t v p) = calls (advance t p))
  /\ (forall T p,
        calls (advance T p) = calls p
        \/ exists due r,
             timer p = Some (due, r) /\ due <= T
             /\ preview_gate (url r) = true
             /\ calls (advance T p) = (calls p ++ [(due, url r)])%list)
  /\ (forall t v rest p T,
        quiet_at t p -> v <> url (app (world p)) ->
        rapid t rest -> each_differs v rest ->
        let last := last_change (t, v) rest in
        let p' := typing ((t, v) :: rest) p in
        (T < fst last + 500 ->
         calls (advance T p') = calls p
         /\ network (world (advance T p')) = network (world p))
        /\ (fst last + 500 <= T ->
            timer (advance T p') = None
            /\ calls (advance T p')
               = (calls p
                  ++ if preview_gate (snd last)
                     then [(fst last + 500, snd last)] else [])%list
            /\ network (world (advance T p'))
               = (network (world p)
                  ++ if preview_gate (snd last)
                     then [info_request (snd last)] else [])%list)).
Proof.
  split; [exact onChange_restarts|]. split; [exact advance_calls|].
  intros t v rest p T Hq Hv Hr Hd last p'.
  assert (Hs : settled_on (fst last) (snd last) p p').
  { subst last p'. simpl. apply typing_settles; try assumption.
    now apply onChange_settles. }
  split.
  - intros Hlt. rewrite (advance_quiet T p').
    + destruct Hs as (_ & _ & Hc & Hn). now split.
    + eapply settled_quiet; eassumption.
  - intros Hle. now apply advance_fires.
Qed.

Lemma debounce_fetches_once_for_last_input_witness :
  let p := mkPage (page_with "" [] true) None [] in
  let p' :=
    typing [(0, "h"); (120, "https://example.com/v"); (300, "https://example.com/v1")]
      p in
  (calls (advance 799 p') = [] /\ network (world (advance 799 p')) = [])
  /\ timer (advance 800 p') = None
  /\ calls (advance 800 p') = [(800, "https://example.com/v1")]
  /\ network (world (advance 800 p')) = [info_request "https://example.com/v1"].
Proof.
  intros p p'. split.
  - apply (proj1 (proj2 (proj2 debounce_fetches_once_for_last_input) 0 "h"
                    [(120, "https://example.com/v"); (300, "https://example.com/v1")]
                    p 799 I ltac:(discriminate)
                    ltac:(simpl; repeat split; lia)
                    ltac:(simpl; repeat split; discriminate))).
    simpl. lia.
  - apply (proj2 (proj2 (proj2 debounce_fetches_once_for_last_input) 0 "h"
                    [(120, "https://example.com/v"); (300, "https://example.com/v1")]
                    p 800 I ltac:(discriminate)
                    ltac:(simpl; repeat split; lia)
                    ltac:(simpl; repeat split; discriminate))).
    simpl. lia.
Defined.

(** ** Strings: [trim] and [includes] *)

Lemma prefix_iff p : forall s,
  String.prefix p s = true <-> exists post, s = p ++ post.
Proof.
  induction p as [|c p IH]; intros s.
  - split; [intros _; now exists s|]. intros _. now destruct s.
  - destruct s as [|d s]; simpl.
    + split; [discriminate | intros [post Hpost]; discriminate].
    + destruct (Ascii.ascii_dec c d) as [-> | Hne].
      * rewrite IH. split; intros [post Hpost]; exists post.
        -- now rewrite Hpost.
        -- now injection Hpost.
      * split; [discriminate|]. intros [post Hpost].
        injection Hpost as Hc _. now subst.
Qed.

Lemma includes_iff sub : forall s,
  includes s sub = true <-> exists pre post, s = pre ++ sub ++ post.
Proof.
  induction s as [|c s IH].
  - cbn [includes]. destruct (String.prefix sub "") eqn:Hp.
    + split; [intros _|reflexivity].
      apply prefix_iff in Hp as [post Hpost]. now exists "", post.
    + split; [discriminate|]. intros (pre & post & Heq).
      destruct pre as [|? ?]; [|discriminate].
      assert (String.prefix sub "" = true) as Habs
        by (apply prefix_iff; now exists post).
      congruence.
  - cbn [includes]. destruct (String.prefix sub (String c s)) eqn:Hp.
    + split; [intros _|reflexivity].
      apply prefix_iff in Hp as [post Hpost]. now exists "", post.
    + rewrite IH. split.
      * intros (pre & post & ->). now exists (String c pre), post.
      * intros (pre & post & Heq). destruct pre as [|d pre].
        -- assert (String.prefix sub (String c s) = true) as Habs
             by (apply prefix_iff; now exists post).
           congruence.
        -- injection Heq as _ ->. now exists pre, post.
Qed.

Lemma all_white_app a b : all_white (a ++ b) = all_white a && all_white b.
Proof.
  induction a as [|c a IH]; simpl; [reflexivity|].
  rewrite IH. now rewrite andb_assoc.
Qed.

Lemma all_white_rev_onto s : forall acc,
  all_white (string_rev_onto s acc) = all_white s && all_white acc.
Proof.
  induction s as [|c s IH]; intros acc; simpl; [reflexivity|].
  rewrite IH. simpl. destruct (is_white_space c), (all_white s); reflexivity.
Qed.

Lemma all_white_reverse s : all_white (string_reverse s) = all_white s.
Proof.
  unfold string_reverse. rewrite all_white_rev_onto. simpl. apply andb_true_r.
Qed.

Lemma all_white_trimStart s : all_white (trimStart s) = all_white s.
Proof.
  induction s as [|c s IH]; simpl; [reflexivity|].
  destruct (is_white_space c) eqn:Hc; simpl; [exact IH | now rewrite Hc].
Qed.

Lemma trimStart_empty_iff s : trimStart s = "" <-> all_white s = true.
Proof.
  induction s as [|c s IH]; simpl; [tauto|].
  destruct (is_white_space c); simpl; [exact IH|].
  split; discriminate.
Qed.

Lemma string_rev_onto_empty s acc : string_rev_onto s acc = "" -> s = "" /\ acc = "".
Proof.
  revert acc. induction s as [|c s IH]; intros acc; simpl; [tauto|].
  intros H. apply IH in H as [_ H]. discriminate H.
Qed.

Lemma trim_empty_iff s : trim s = "" <-> all_white s = true.
Proof.
  unfold trim, trimEnd. split.
  - intros H. apply string_rev_onto_empty in H as [H _].
    apply trimStart_empty_iff in H.
    now rewrite all_white_reverse, all_white_trimStart in H.
  - intros H.
    assert (Hr : trimStart (string_reverse (trimStart s)) = "").
    { apply trimStart_empty_iff.
      now rewrite all_white_reverse, all_white_trimStart. }
    now rewrite Hr.
Qed.

Lemma nonempty_trim s : nonempty (trim s) = negb (all_white s).
Proof.
  unfold nonempty. destruct (String.eqb_spec (trim s) "") as [He | Hne].
  - apply trim_empty_iff in He. now rewrite He.
  - destruct (all_white s) eqn:Hw; [|reflexivity].
    apply trim_empty_iff in Hw. contradiction.
Qed.

(** The guard [!url.trim()] of both operations holds exactly for the inputs
    made of white space only, the empty one among them. *)
Theorem blank_guard_is_white_space_only r w :
  all_white (url r) = true <->
  getVideoInfo_begin r w = Finished w
  /\ handleDownload_begin r w = Finished (setMessage enter_url_message w).
Proof.
  unfold getVideoInfo_begin, handleDownload_begin. rewrite nonempty_trim.
  destruct (all_white (url r)); simpl.
  - tauto.
  - split; [discriminate|]. intros [H _]. discriminate H.
Qed.

(** The test of the debounce callback passes exactly for the inputs that
    contain [http] somewhere; its first half, [url.trim()], never decides. *)
Theorem preview_gate_is_substring_test v :
  preview_gate v = includes v "http"
  /\ (preview_gate v = true <-> exists pre post, v = pre ++ "http" ++ post).
Proof.
  assert (Hgate : preview_gate v = includes v "http").
  { unfold preview_gate. destruct (includes v "http") eqn:Hi.
    - apply includes_iff in Hi as (pre & post & ->).
      rewrite nonempty_trim, all_white_app. simpl.
      now rewrite andb_false_r.
    - apply andb_false_r. }
  split; [exact Hgate|]. rewrite Hgate. apply includes_iff.
Qed.

(** ** Durations *)

Lemma includes_colon a b : includes (a ++ ":" ++ b) ":" = true.
Proof. apply includes_iff. now exists a, b. Qed.

Lemma all_digits_pretty_N_go x : forall s,
  all_digits s = true -> all_digits (pretty_N_go x s) = true.
Proof.
  induction (N.lt_wf_0 x) as [x _ IH]; intros s Hs.
  assert (x = 0 \/ 0 < x)%N as [-> | Hpos] by lia.
  - now rewrite pretty_N_go_0.
  - rewrite pretty_N_go_step by assumption. apply IH.
    + now apply N.div_lt.
    + simpl. rewrite Hs, andb_true_r.
      assert (Hlt : (x `mod` 10 < 10)%N) by (apply N.mod_lt; lia).
      destruct (x `mod` 10)%N as [|[[[|[]|]|[[]|[]|]|]|[[|[]|]|[[]|[]|]|]|]];
        try reflexivity; lia.
Qed.

Lemma all_digits_pretty (z : Z) : (0 <= z)%Z -> all_digits (pretty z) = true.
Proof.
  intros Hz. destruct z as [|p|p]; [reflexivity| |lia].
  unfold pretty, pretty_Z, pretty, pretty_positive, pretty, pretty_N.
  case_decide; [reflexivity|]. now apply all_digits_pretty_N_go.
Qed.

Lemma below_60 (P : Z -> bool) :
  forallb P (map Z.of_nat (seq 0 60)) = true ->
  forall x, (0 <= x < 60)%Z -> P x = true.
Proof.
  intros Hall x Hx. rewrite forallb_forall in Hall. apply Hall.
  apply in_map_iff. exists (Z.to_nat x). split; [lia|]. apply in_seq. lia.
Qed.

Lemma padStart_two_digits x :
  (0 <= x < 60)%Z -> padStart 2 "0" (pretty x) = two_digits x.
Proof.
  intros Hx. apply String.eqb_eq.
  apply (below_60 (fun x => String.eqb (padStart 2 "0" (pretty x)) (two_digits x)));
    [vm_compute; reflexivity | exact Hx].
Qed.

Lemma is_digit_digit d : (0 <= d < 10)%Z -> is_digit (digit d) = true.
Proof.
  intros Hd. unfold is_digit, digit.
  rewrite nat_ascii_embedding by lia.
  apply andb_true_iff. split; apply Nat.leb_le; lia.
Qed.

Lemma digit_inj d e : (0 <= d < 10)%Z -> (0 <= e < 10)%Z -> digit d = digit e -> d = e.
Proof.
  intros Hd He Heq. apply (f_equal nat_of_ascii) in Heq. unfold digit in Heq.
  rewrite !nat_ascii_embedding in Heq by lia. lia.
Qed.

Lemma all_digits_two_digits x : (0 <= x < 60)%Z -> all_digits (two_digits x) = true.
Proof.
  intros Hx. unfold two_digits. cbn [all_digits].
  rewrite (is_digit_digit (x / 10)), (is_digit_digit (x `mod` 10));
    [reflexivity|..]; Z.to_euclidean_division_equations; lia.
Qed.

Lemma two_digits_inj x y :
  (0 <= x < 60)%Z -> (0 <= y < 60)%Z -> two_digits x = two_digits y -> x = y.
Proof.
  intros Hx Hy Heq. unfold two_digits in Heq. injection Heq as Hhi Hlo.
  apply digit_inj in Hhi; [|Z.to_euclidean_division_equations; lia..].
  apply digit_inj in Hlo; [|Z.to_euclidean_division_equations; lia..].
  Z.to_euclidean_division_equations; lia.
Qed.

Lemma all_digits_no_colon a b : all_digits (a ++ ":" ++ b) = false.
Proof.
  induction a as [|c a IH]; simpl; [reflexivity|].
  rewrite IH. apply andb_false_r.
Qed.

Lemma split_at_colon a1 : forall a2 b1 b2,
  all_digits a1 = true -> all_digits a2 = true ->
  a1 ++ ":" ++ b1 = a2 ++ ":" ++ b2 -> a1 = a2 /\ b1 = b2.
Proof.
  induction a1 as [|c a1 IH]; intros [|d a2] b1 b2 H1 H2 Heq;
    cbn in Heq; cbn [all_digits] in H1, H2.
  - injection Heq as Hb. now split.
  - injection Heq as Hd _. subst d. discriminate H2.
  - injection Heq as Hc _. subst c. discriminate H1.
  - injection Heq as Hc Heq. subst d.
    apply andb_true_iff in H1 as [_ H1]. apply andb_true_iff in H2 as [_ H2].
    destruct (IH a2 b1 b2 H1 H2 Heq) as [Ha Hb]. subst. now split.
Qed.

Lemma formatDuration_positive s :
  (0 < s)%Z ->
  formatDuration s
  = if (s / 3600 =? 0)%Z
    then pretty (s `mod` 3600 / 60)%Z ++ ":" ++ two_digits (s `mod` 60)
    else pretty (s / 3600)%Z ++ ":" ++ two_digits (s `mod` 3600 / 60)
         ++ ":" ++ two_digits (s `mod` 60).
Proof.
  intros Hs. unfold formatDuration.
  assert (Ht : truthy (VNum s) = true).
  { simpl. destruct (Z.eqb_spec s 0); [lia | reflexivity]. }
  rewrite Ht. cbn [negb].
  rewrite !Z.rem_mod_nonneg by lia.
  rewrite !padStart_two_digits by (Z.to_euclidean_division_equations; lia).
  destruct (Z.ltb_spec 0 (s / 3600)), (Z.eqb_spec (s / 3600) 0);
    try reflexivity; Z.to_euclidean_division_equations; lia.
Qed.

(** [formatDuration] answers [Unknown] for zero and for nothing else. *)
Theorem formatDuration_unknown_iff_zero s :
  formatDuration s = "Unknown" <-> s = 0%Z.
Proof.
  split; [|intros ->; reflexivity].
  intros Hu. destruct (Z.eqb_spec s 0) as [Hz | Hnz]; [exact Hz|].
  exfalso.
  assert (Hc : includes (formatDuration s) ":" = true).
  { unfold formatDuration. simpl.
    destruct (Z.eqb_spec s 0); [contradiction|]. cbn [negb].
    destruct (0 <? s / 3600)%Z; apply includes_colon. }
  rewrite Hu in Hc. discriminate Hc.
Qed.

(** A positive duration is shown by its hours, minutes and seconds: the
    three recompose to the duration, minutes and seconds stay below 60 and
    the seconds, and the minutes behind an hour, take exactly two digits;
    the hours appear only from one hour on. *)
Theorem formatDuration_fields s :
  displayable s ->
  exists h m c,
    (s = 3600 * h + 60 * m + c /\ 0 <= h /\ 0 <= m < 60 /\ 0 <= c < 60)%Z
    /\ formatDuration s
       = if (h =? 0)%Z then pretty m ++ ":" ++ two_digits c
         else pretty h ++ ":" ++ two_digits m ++ ":" ++ two_digits c.
Proof.
  intros [Hs _].
  exists (s / 3600)%Z, (s `mod` 3600 / 60)%Z, (s `mod` 60)%Z.
  split; [Z.to_euclidean_division_equations; lia|].
  now apply formatDuration_positive.
Qed.

Lemma formatDuration_fields_witness :
  exists h m c,
    (3725 = 3600 * h + 60 * m + c /\ 0 <= h /\ 0 <= m < 60 /\ 0 <= c < 60)%Z
    /\ formatDuration 3725
       = if (h =? 0)%Z then pretty m ++ ":" ++ two_digits c
         else pretty h ++ ":" ++ two_digits m ++ ":" ++ two_digits c.
Proof. apply (formatDuration_fields 3725). unfold displayable. lia. Defined.

(** Two positive durations that are shown alike are equal. *)
Theorem formatDuration_injective a b :
  displayable a -> displayable b ->
  formatDuration a = formatDuration b -> a = b.
Proof.
  intros [Ha _] [Hb _].
  rewrite (formatDuration_positive a Ha), (formatDuration_positive b Hb).
  assert (Hda : forall x, (0 < x)%Z ->
            all_digits (pretty (x / 3600)%Z) = true
            /\ all_digits (pretty (x `mod` 3600 / 60)%Z) = true
            /\ all_digits (two_digits (x `mod` 3600 / 60)) = true
            /\ all_digits (two_digits (x `mod` 60)) = true).
  { intros x Hx. repeat split;
      (apply all_digits_pretty || apply all_digits_two_digits);
      Z.to_euclidean_division_equations; lia. }
  destruct (Hda a Ha) as (Ha1 & Ha2 & Ha3 & Ha4).
  destruct (Hda b Hb) as (Hb1 & Hb2 & Hb3 & Hb4).
  destruct (Z.eqb_spec (a / 3600) 0) as [Hah | Hah],
           (Z.eqb_spec (b / 3600) 0) as [Hbh | Hbh]; intros Heq.
  - apply split_at_colon in Heq as [Hm Hc]; try assumption.
    apply (inj pretty) in Hm.
    apply two_digits_inj in Hc; [|Z.to_euclidean_division_equations; lia..].
    Z.to_euclidean_division_equations; lia.
  - apply split_at_colon in Heq as [_ Hc]; try assumption.
    rewrite Hc, all_digits_no_colon in Ha4. discriminate Ha4.
  - apply split_at_colon in Heq as [_ Hc]; try assumption.
    rewrite <- Hc, all_digits_no_colon in Hb4. discriminate Hb4.
  - apply split_at_colon in Heq as [Hh Hrest]; try assumption.
    apply split_at_colon in Hrest as [Hm Hc]; try assumption.
    apply (inj pretty) in Hh.
    apply two_digits_inj in Hm; [|Z.to_euclidean_division_equations; lia..].
    apply two_digits_inj in Hc; [|Z.to_euclidean_division_equations; lia..].
    Z.to_euclidean_division_equations; lia.
Qed.

Lemma formatDuration_injective_witness :
  displayable 75 /\ formatDuration 75 = formatDuration (60 + 15)
  /\ 75%Z = (60 + 15)%Z.
Proof.
  split; [unfold displayable; lia|]. split; [reflexivity|].
  apply (formatDuration_injective 75 (60 + 15));
    [unfold displayable; lia | unfold displayable; lia | reflexivity].
Defined.

(** ** Persisting and reloading *)

(** What a successful [saveToHistory] leaves in the store is what the next
    mount of the page loads: the reloaded log is the log the page showed,
    new entry first. *)
Theorem history_survives_reload r item now w onLine :
  let w' := snd (saveToHistory r item now AdapterOk w) in
  downloadHistory (app (loadHistory AdapterOk (remount onLine w')))
  = downloadHistory (app w')
  /\ head (downloadHistory (app (loadHistory AdapterOk (remount onLine w'))))
     = Some (stamp item now).
Proof.
  intros w'. subst w'. unfold loadHistory, remount, saveToHistory.
  cbn [snd storage adapter_call setDownloadHistory set_app set_storage].
  rewrite lookup_insert_eq. split; reflexivity.
Qed.

(** After a successful [clearHistory] the next mount shows an empty log,
    whether its read succeeds or not. *)
Theorem cleared_history_stays_empty io w onLine :
  downloadHistory
    (app (loadHistory io (remount onLine (snd (clearHistory AdapterOk w))))) = [].
Proof.
  unfold loadHistory, remount, clearHistory.
  cbn [snd storage adapter_call setDownloadHistory setMessage set_app set_storage].
  destruct io; [|reflexivity]. now rewrite lookup_delete_eq.
Qed.

(** A write that is rejected loses the entry for good: the next mount loads
    the record as it was before the download. *)
Theorem rejected_write_is_lost_on_reload r item now error w onLine :
  synced w ->
  downloadHistory
    (app (loadHistory AdapterOk
            (remount onLine (snd (saveToHistory r item now (AdapterFail error) w)))))
  = downloadHistory (app w).
Proof.
  unfold synced, stored_log, loadHistory, remount, saveToHistory.
  cbn [snd storage adapter_call console_error app].
  intros Hs. destruct (storage w !! "downloadHistory") as [h|] eqn:Hh;
    rewrite Hs; reflexivity.
Qed.

Lemma rejected_write_is_lost_on_reload_witness :
  downloadHistory
    (app (loadHistory AdapterOk
            (remount true
               (snd (saveToHistory (initialState true) (sample_entry 1) "now"
                       (AdapterFail (mkJsError None (VStr "QuotaExceededError")))
                       (empty_world (initialState true)))))))
  = downloadHistory (app (empty_world (initialState true))).
Proof.
  apply (rejected_write_is_lost_on_reload (initialState true) (sample_entry 1)
           "now" (mkJsError None (VStr "QuotaExceededError"))
           (empty_world (initialState true)) true).
  reflexivity.
Defined.

(** ** Buttons and handlers *)

Lemma preview_disabled_while_loading st :
  loadingInfo st = true -> preview_disabled st = true.
Proof.
  intros Hl. unfold preview_disabled. rewrite Hl.
  now rewrite orb_true_r.
Qed.

(** A click on an enabled Preview button always issues the request: the
    guard of [getVideoInfo] cannot fire.  The old preview and message are
    gone at once and the button is disabled until the request settles. *)
Theorem enabled_preview_click_fetches r w :
  preview_disabled r = false ->
  exists w',
    getVideoInfo_begin r w = Awaiting w'
    /\ network w' = (network w ++ [info_request (url r)])%list
    /\ videoInfo (app w') = VNull
    /\ message (app w') = mkMessage "" (VStr "")
    /\ preview_disabled (app w') = true.
Proof.
  unfold preview_disabled. intros Hen.
  apply orb_false_iff in Hen as [Hen _]. apply orb_false_iff in Hen as [Hu _].
  apply negb_false_iff in Hu.
  unfold getVideoInfo_begin. rewrite Hu. cbn [negb].
  eexists. split; [reflexivity|]. repeat split.
  apply preview_disabled_while_loading. reflexivity.
Qed.

Lemma enabled_preview_click_fetches_witness :
  let w := page_with "https://example.com/v1" [] true in
  exists w',
    getVideoInfo_begin (app w) w = Awaiting w'
    /\ network w' = (network w ++ [info_request (url (app w))])%list
    /\ videoInfo (app w') = VNull
    /\ message (app w') = mkMessage "" (VStr "")
    /\ preview_disabled (app w') = true.
Proof.
  intros w. apply (enabled_preview_click_fetches (app w) w). reflexivity.
Defined.

(** A click on an enabled Download button is never refused for being
    offline.  It issues the request, after which input, selector and button
    are disabled, unless the input is blank, which is possible as a preview
    outlives the input that produced it; then it asks for a URL. *)
Theorem enabled_download_click r w :
  download_disabled r = false ->
  (all_white (url r) = true ->
   handleDownload_begin r w = Finished (setMessage enter_url_message w))
  /\ (all_white (url r) = false ->
      handleDownload_begin r w = Awaiting (download_pending r w)
      /\ input_disabled (app (download_pending r w)) = true
      /\ download_disabled (app (download_pending r w)) = true).
Proof.
  unfold download_disabled. intros Hen.
  apply orb_false_iff in Hen as [_ Hon]. apply negb_false_iff in Hon.
  unfold handleDownload_begin. rewrite nonempty_trim, Hon.
  split; intros ->; cbn [negb]; [reflexivity|].
  repeat split.
Qed.

Lemma enabled_download_click_witness :
  let w := page_with "https://example.com/v1" [] true in
  handleDownload_begin (app w) w = Awaiting (download_pending (app w) w)
  /\ input_disabled (app (download_pending (app w) w)) = true
  /\ download_disabled (app (download_pending (app w) w)) = true.
Proof.
  intros w. apply (proj2 (enabled_download_click (app w) w eq_refl)).
  reflexivity.
Defined.











(** ** Sessions: what every sequence of events preserves *)

Lemma handleDownload_resume_effect r res now io w :
  network (handleDownload_resume r res now io w) = network w
  /\ loading (app (handleDownload_resume r res now io w)) = false
  /\ history_effect w (handleDownload_resume r res now io w).
Proof.
  unfold handleDownload_resume, history_effect.
  destruct res as [data | error];
    [destruct (truthy (get data "success")); [destruct io|]|].
  - split; [reflexivity|]. split; [reflexivity|]. right. left.
    exists (newHistory (downloadHistory r) (history_item r data) now).
    split; [apply newHistory_length|]. split; reflexivity.
  - split; [reflexivity|]. split; [reflexivity|]. left. split; reflexivity.
  - split; [reflexivity|]. split; [reflexivity|]. left. split; reflexivity.
  - split; [reflexivity|]. split; [reflexivity|]. left. split; reflexivity.
Qed.

Lemma getVideoInfo_resume_effect res w :
  network (getVideoInfo_resume res w) = network w
  /\ loading (app (getVideoInfo_resume res w)) = loading (app w)
  /\ downloadHistory (app (getVideoInfo_resume res w)) = downloadHistory (app w)
  /\ storage (getVideoInfo_resume res w) = storage w.
Proof.
  unfold getVideoInfo_resume.
  destruct res as [data | error]; [destruct (truthy (get data "success"))|];
    repeat split.
Qed.

Lemma start_info_effect s :
  (page (start_info s) = page s /\ inflight (start_info s) = inflight s)
  \/ (nonempty (trim (url (app (page s)))) = true
      /\ network (page (start_info s))
         = (network (page s) ++ [info_request (url (app (page s)))])%list
      /\ loading (app (page (start_info s))) = loading (app (page s))
      /\ downloadHistory (app (page (start_info s)))
         = downloadHistory (app (page s))
      /\ storage (page (start_info s)) = storage (page s)
      /\ inflight (start_info s) = (inflight s ++ [PendingInfo])%list).
Proof.
  unfold start_info, getVideoInfo_begin.
  destruct (nonempty (trim (url (app (page s))))); cbn [negb].
  - right. repeat split.
  - left. split; reflexivity.
Qed.

Lemma start_download_effect s :
  (network (page (start_download s)) = network (page s)
   /\ loading (app (page (start_download s))) = loading (app (page s))
   /\ inflight (start_download s) = inflight s
   /\ downloadHistory (app (page (start_download s)))
      = downloadHistory (app (page s))
   /\ storage (page (start_download s)) = storage (page s))
  \/ (nonempty (trim (url (app (page s)))) = true
      /\ isOnline (app (page s)) = true
      /\ network (page (start_download s))
         = (network (page s) ++ [download_request (app (page s))])%list
      /\ loading (app (page (start_download s))) = true
      /\ inflight (start_download s)
         = (inflight s ++ [PendingDownload (app (page s))])%list
      /\ downloadHistory (app (page (start_download s)))
         = downloadHistory (app (page s))
      /\ storage (page (start_download s)) = storage (page s)).
Proof.
  unfold start_download, handleDownload_begin.
  destruct (nonempty (trim (url (app (page s))))); cbn [negb].
  - destruct (isOnline (app (page s))); cbn [negb].
    + right. repeat split.
    + left. repeat split.
  - left. repeat split.
Qed.

Lemma step_history_effect e s : history_effect (page s) (page (step e s)).
Proof.
  assert (Hsame : forall w, history_effect w w) by (intros w; left; now split).
  destruct e as [v | q | | | | io | io | b | i res now io]; cbn [step].
  - destruct (input_disabled _); [apply Hsame | left; now split].
  - destruct (loading _); [apply Hsame | left; now split].
  - destruct (preview_disabled _); [apply Hsame|].
    destruct (start_info_effect s) as [[-> _] | (_ & _ & _ & Hh & Hs & _)];
      [apply Hsame | left; now split].
  - destruct (preview_gate _); [|apply Hsame].
    destruct (start_info_effect s) as [[-> _] | (_ & _ & _ & Hh & Hs & _)];
      [apply Hsame | left; now split].
  - destruct (_ && _); [|apply Hsame].
    destruct (start_download_effect s)
      as [(_ & _ & _ & Hh & Hs) | (_ & _ & _ & _ & _ & Hh & Hs)];
      left; now split.
  - destruct (clear_rendered _); [|apply Hsame].
    destruct io; cbn; [right; right; left | left]; now split.
  - unfold loadHistory. destruct io; cbn; [|left; now split].
    destruct (storage (page s) !! "downloadHistory") as [h|] eqn:Hh.
    + right. right. right. exists h. now repeat split.
    + left. now split.
  - left. now split.
  - destruct (inflight s !! i) as [[|r]|]; [| |apply Hsame]; cbn [page].
    + destruct (getVideoInfo_resume_effect res (page s)) as (_ & _ & Hh & Hs).
      left. now split.
    + apply handleDownload_resume_effect.
Qed.

Lemma step_network_effect e s : network_effect e (page s) (page (step e s)).
Proof.
  destruct e as [v | q | | | | io | io | b | i res now io]; cbn [step].
  - destruct (input_disabled _); now left.
  - destruct (loading _); now left.
  - destruct (preview_disabled _) eqn:Hd; [now left|].
    destruct (start_info_effect s) as [[-> _] | (Hu & Hn & _)]; [now left|].
    right. left. split; [exact Hn|]. split; [exact Hu|]. right. split; [reflexivity|].
    unfold preview_disabled in Hd. apply orb_false_iff in Hd as [_ Hd].
    now apply negb_false_iff in Hd.
  - destruct (preview_gate _); [|now left].
    destruct (start_info_effect s) as [[-> _] | (Hu & Hn & _)]; [now left|].
    right. left. split; [exact Hn|]. split; [exact Hu|]. now left.
  - destruct (_ && _); [|now left].
    destruct (start_download_effect s) as [(Hn & _) | (Hu & Hon & Hn & _)];
      [now left|].
    right. right. now repeat split.
  - destruct (clear_rendered _); [destruct io|]; now left.
  - unfold loadHistory. destruct io; cbn; [|now left].
    destruct (storage (page s) !! "downloadHistory"); now left.
  - now left.
  - destruct (inflight s !! i) as [[|r]|]; [| |now left]; cbn [page]; left.
    + apply getVideoInfo_resume_effect.
    + apply handleDownload_resume_effect.
Qed.

Lemma stored_log_insert nh w w' :
  storage w' = <["downloadHistory" := nh]> (storage w) -> stored_log w' = nh.
Proof. intros Hs. unfold stored_log. rewrite Hs. now rewrite lookup_insert_eq. Qed.

Lemma stored_log_delete w w' :
  storage w' = delete "downloadHistory" (storage w) -> stored_log w' = [].
Proof. intros Hs. unfold stored_log. rewrite Hs. now rewrite lookup_delete_eq. Qed.

Lemma stored_log_same w w' : storage w' = storage w -> stored_log w' = stored_log w.
Proof. intros Hs. unfold stored_log. now rewrite Hs. Qed.

Lemma stored_log_lookup h w :
  storage w !! "downloadHistory" = Some h -> stored_log w = h.
Proof. intros Hs. unfold stored_log. now rewrite Hs. Qed.

(** Through every sequence of events, in any interleaving of requests in
    flight, the log on the page and the stored record stay within 20
    entries once they are, loading the record included. *)
Theorem session_history_bounded events : forall s,
  bounded (page s) -> length (stored_log (page s)) <= 20 ->
  bounded (page (run events s))
  /\ length (stored_log (page (run events s))) <= 20.
Proof.
  induction events as [|e rest IH]; intros s Hb Hs; [now split|].
  cbn [run]. unfold bounded in *.
  destruct (step_history_effect e s)
    as [[Hh Hst] | [(nh & Hlen & Hh & Hst) | [[Hh Hst] | (h & Hl & Hh & Hst)]]];
    apply IH.
  - now rewrite Hh.
  - now rewrite (stored_log_same _ _ Hst).
  - now rewrite Hh.
  - now rewrite (stored_log_insert _ _ _ Hst).
  - rewrite Hh. simpl. lia.
  - rewrite (stored_log_delete _ _ Hst). simpl. lia.
  - rewrite Hh. now rewrite <- (stored_log_lookup _ _ Hl).
  - now rewrite (stored_log_same _ _ Hst).
Qed.

Lemma session_history_bounded_witness :
  let s := mkSession (page_with "https://example.com/v1" sample_log true) [] in
  let events :=
    [EvPreview;
     EvSettle 0 (Fulfilled (<["success" := VBool true]>
                            (<["data" := VObj ∅]> ∅))) "" AdapterOk;
     EvDownload;
     EvSettle 0 (Fulfilled (<["success" := VBool true]> ∅)) "now" AdapterOk] in
  bounded (page (run events s))
  /\ length (stored_log (page (run events s))) <= 20.
Proof.
  intros s events. apply (session_history_bounded events s).
  - unfold bounded. vm_compute. lia.
  - vm_compute. lia.
Defined.

(** The page shows what is stored.  A mount whose read succeeds starts that
    way, and every event keeps it that way, in any interleaving: writes,
    rejected writes, clearing, rejected deletes and reads. *)
Theorem session_stays_synced :
  (forall onLine w, synced (loadHistory AdapterOk (remount onLine w)))
  /\ (forall events s, synced (page s) -> synced (page (run events s))).
Proof.
  split.
  - intros onLine w. unfold synced, stored_log, loadHistory, remount.
    cbn [storage adapter_call].
    destruct (storage w !! "downloadHistory") as [h|] eqn:Hh; cbn; now rewrite Hh.
  - induction events as [|e rest IH]; intros s Hs; [exact Hs|].
    cbn [run]. apply IH. unfold synced in *.
    destruct (step_history_effect e s)
      as [[Hh Hst] | [(nh & Hlen & Hh & Hst) | [[Hh Hst] | (h & Hl & Hh & Hst)]]].
    + now rewrite Hh, (stored_log_same _ _ Hst).
    + now rewrite Hh, (stored_log_insert _ _ _ Hst).
    + now rewrite Hh, (stored_log_delete _ _ Hst).
    + now rewrite Hh, (stored_log_same _ _ Hst), (stored_log_lookup _ _ Hl).
Qed.

Lemma session_stays_synced_witness :
  let s := mkSession (page_with "https://example.com/v1" [] true) [] in
  let events :=
    [EvPreview;
     EvSettle 0 (Fulfilled (<["success" := VBool true]>
                            (<["data" := VObj ∅]> ∅))) "" AdapterOk;
     EvDownload;
     EvSettle 0 (Fulfilled (<["success" := VBool true]> ∅)) "now" AdapterOk] in
  synced (page (run events s))
  /\ length (downloadHistory (app (page (run events s)))) = 1.
Proof.
  intros s events. split; [|reflexivity].
  apply (proj2 session_stays_synced events s). reflexivity.
Defined.

Lemma well_formed_info_request input :
  nonempty (trim input) = true -> well_formed (info_request input).
Proof.
  intros Hne. split; [now left|]. exists input. split; [exact Hne|].
  apply lookup_singleton_eq.
Qed.

Lemma well_formed_download_request r :
  nonempty (trim (url r)) = true -> well_formed (download_request r).
Proof.
  intros Hne. split; [now right|]. exists (url r). split; [exact Hne|].
  apply lookup_insert_eq.
Qed.

(** The component never sends a blank URL: every request it issues, through
    any sequence of events, goes to one of its two endpoints and carries the
    trimmed, non-empty input. *)
Theorem session_requests_well_formed events : forall s,
  Forall well_formed (network (page s)) ->
  Forall well_formed (network (page (run events s))).
Proof.
  induction events as [|e rest IH]; intros s Hwf; [exact Hwf|].
  cbn [run]. apply IH.
  destruct (step_network_effect e s)
    as [Hn | [(Hn & Hu & _) | (Hn & Hu & _)]]; rewrite Hn.
  - exact Hwf.
  - apply Forall_app. split; [exact Hwf|]. constructor; [|constructor].
    now apply well_formed_info_request.
  - apply Forall_app. split; [exact Hwf|]. constructor; [|constructor].
    now apply well_formed_download_request.
Qed.

Lemma session_requests_well_formed_witness :
  let s := mkSession (page_with "  https://example.com/v1 " [] true) [] in
  Forall well_formed
    (network (page (run [EvDebounce; EvInput "   "; EvPreview; EvDebounce] s)))
  /\ length (network (page (run [EvDebounce; EvInput "   "; EvPreview; EvDebounce] s)))
     = 1.
Proof.
  intros s. split; [|reflexivity].
  apply (session_requests_well_formed
           [EvDebounce; EvInput "   "; EvPreview; EvDebounce] s).
  constructor.
Defined.

(** While the page is offline no click issues a request; the only request
    that still goes out is the metadata request of the debounce timeout,
    which does not look at the connection and fetches for every input that
    passes its test. *)
Theorem offline_requests e s :
  (isOnline (app (page s)) = false ->
   network (page (step e s)) = network (page s)
   \/ (e = EvDebounce
       /\ network (page (step e s))
          = (network (page s) ++ [info_request (url (app (page s)))])%list))
  /\ (preview_gate (url (app (page s))) = true ->
      network (page (step EvDebounce s))
      = (network (page s) ++ [info_request (url (app (page s)))])%list).
Proof.
  split.
  - intros Hoff.
    destruct (step_network_effect e s)
      as [Hn | [(Hn & _ & [He | [_ Hon]]) | (_ & _ & _ & Hon)]].
    + now left.
    + right. now split.
    + congruence.
    + congruence.
  - intros Hg. cbn [step]. rewrite Hg.
    unfold start_info, getVideoInfo_begin.
    apply andb_true_iff in Hg as [Hne _]. rewrite Hne. reflexivity.
Qed.

Lemma offline_requests_witness :
  let s := mkSession (page_with "https://example.com/v1" [] false) [] in
  (network (page (step EvDownload s)) = network (page s)
   \/ (EvDownload = EvDebounce
       /\ network (page (step EvDownload s))
          = (network (page s) ++ [info_request (url (app (page s)))])%list))
  /\ network (page (step EvDebounce s)) = [info_request "https://example.com/v1"].
Proof.
  intros s. split.
  - apply (proj1 (offline_requests EvDownload s)). reflexivity.
  - apply (proj2 (offline_requests EvDebounce s)). reflexivity.
Defined.

Lemma downloads_snoc (l : list Pending) p :
  length (filter is_download (l ++ [p])%list)
  = length (filter is_download l) + if is_download p then 1 else 0.
Proof.
  rewrite filter_app, length_app. f_equal.
  destruct p; reflexivity.
Qed.

Lemma downloads_delete (l : list Pending) i p :
  l !! i = Some p ->
  length (filter is_download l)
  = length (filter is_download (delete i l)) + if is_download p then 1 else 0.
Proof.
  intros Hl. rewrite <- (take_drop_middle l i p Hl) at 1.
  rewrite delete_take_drop, !filter_app, !length_app.
  destruct p; cbn [is_download].
  - rewrite filter_cons_False by (simpl; tauto). lia.
  - rewrite filter_cons_True by exact I. simpl. lia.
Qed.

Lemma step_one_download e s : one_download s -> one_download (step e s).
Proof.
  unfold one_download, downloads. intros Hone.
  destruct e as [v | q | | | | io | io | b | i res now io]; cbn [step].
  - destruct (input_disabled _); exact Hone.
  - destruct (loading _) eqn:Hl; [now rewrite Hl|].
    cbn [page inflight app setQuality set_app loading]. now rewrite Hl.
  - destruct (preview_disabled _); [exact Hone|].
    destruct (start_info_effect s) as [[-> ->] | (_ & _ & Hl & _ & _ & ->)];
      [exact Hone|].
    rewrite downloads_snoc, Hl. cbn [is_download]. lia.
  - destruct (preview_gate _); [|exact Hone].
    destruct (start_info_effect s) as [[-> ->] | (_ & _ & Hl & _ & _ & ->)];
      [exact Hone|].
    rewrite downloads_snoc, Hl. cbn [is_download]. lia.
  - destruct (_ && _) eqn:Hen; [|exact Hone].
    apply andb_true_iff in Hen as [_ Hen]. apply negb_true_iff in Hen.
    unfold download_disabled in Hen. apply orb_false_iff in Hen as [Hl _].
    rewrite Hl in Hone.
    destruct (start_download_effect s)
      as [(_ & Hl' & -> & _) | (_ & _ & _ & Hl' & -> & _)]; rewrite Hl'.
    + now rewrite Hl.
    + rewrite downloads_snoc, Hone. reflexivity.
  - destruct (clear_rendered _); [|exact Hone]. destruct io; exact Hone.
  - unfold loadHistory. destruct io; cbn; [|exact Hone].
    destruct (storage (page s) !! "downloadHistory"); exact Hone.
  - exact Hone.
  - destruct (inflight s !! i) as [[|r]|] eqn:Hi; [| |exact Hone]; cbn [page inflight].
    + destruct (getVideoInfo_resume_effect res (page s)) as (_ & -> & _).
      rewrite (downloads_delete _ _ _ Hi) in Hone. cbn [is_download] in Hone.
      lia.
    + destruct (handleDownload_resume_effect r res now io (page s)) as (_ & -> & _).
      rewrite (downloads_delete _ _ _ Hi) in Hone. cbn [is_download] in Hone.
      destruct (loading (app (page s))); lia.
Qed.

(** Downloads never overlap.  Through every sequence of events at most one
    download is in flight, and one is in flight exactly while [loading] is
    set: the button cannot be clicked again before the request has settled,
    and [loading] is cleared however it settles. *)
Theorem session_one_download events : forall s,
  one_download s ->
  one_download (run events s) /\ length (downloads (run events s)) <= 1.
Proof.
  induction events as [|e rest IH]; intros s Hone.
  - cbn [run]. split; [exact Hone|]. unfold one_download in Hone.
    rewrite Hone. destruct (loading _); lia.
  - cbn [run]. apply IH. now apply step_one_download.
Qed.

Lemma session_one_download_witness :
  let s :=
    mkSession
      (setVideoInfo (VObj ∅) (page_with "https://example.com/v1" [] true)) [] in
  one_download (run [EvDownload; EvDownload; EvInput "x"; EvDownload] s)
  /\ length (downloads (run [EvDownload; EvDownload; EvInput "x"; EvDownload] s))
     <= 1.
Proof.
  intros s.
  apply (session_one_download [EvDownload; EvDownload; EvInput "x"; EvDownload] s).
  reflexivity.
Defined.

(** ** Debounce: slow typing *)

Lemma getVideoInfo_begin_url r w :
  url (app (match getVideoInfo_begin r w with
            | Finished w' => w'
            | Awaiting w' => w'
            end)) = url (app w).
Proof.
  unfold getVideoInfo_begin. destruct (nonempty (trim (url r))); reflexivity.
Qed.

Lemma fetched_cons c rest : fetched (c :: rest) = (fetched [c] ++ fetched rest)%list.
Proof. destruct c as [t v]. simpl. destruct (preview_gate v); reflexivity. Qed.

Lemma advance_armed t v p T :
  armed t v p -> t + 500 <= T ->
  timer (advance T p) = None
  /\ url (app (world (advance T p))) = v
  /\ calls (advance T p) = (calls p ++ fetched [(t, v)])%list
  /\ network (world (advance T p))
     = (network (world p) ++ map (fun c => info_request (snd c)) (fetched [(t, v)]))%list.
Proof.
  intros (r & Ht & Hr & Hu) Hle. unfold advance. rewrite Ht.
  destruct (Nat.leb_spec (t + 500) T); [|lia].
  unfold timer_callback. rewrite Hr. cbn [fetched].
  destruct (preview_gate v) eqn:Hg; cbn [world timer calls map snd].
  - split; [reflexivity|]. split; [now rewrite getVideoInfo_begin_url|].
    split; [reflexivity|].
    unfold getVideoInfo_begin. rewrite Hr.
    apply andb_true_iff in Hg as [Hne _]. now rewrite Hne.
  - rewrite !app_nil_r. now repeat split.
Qed.

Lemma typing_spaced rest : forall t v p T,
  armed t v p -> spaced t rest -> each_differs v rest ->
  fst (last_change (t, v) rest) + 500 <= T ->
  calls (advance T (typing rest p)) = (calls p ++ fetched ((t, v) :: rest))%list
  /\ network (world (advance T (typing rest p)))
     = (network (world p)
        ++ map (fun c => info_request (snd c)) (fetched ((t, v) :: rest)))%list.
Proof.
  induction rest as [|[t' v'] rest IH]; intros t v p T Harmed Hsp Hd HT.
  - cbn [typing]. now apply advance_armed.
  - destruct Hsp as [Hgap Hsp]. destruct Hd as [Hne Hd].
    cbn [typing last_change] in *.
    destruct (advance_armed t v p t' Harmed (Nat.lt_le_incl _ _ Hgap))
      as (Htm & Hu & Hc & Hn).
    assert (Hp2 : armed t' v' (onChange t' v' p)
                  /\ calls (onChange t' v' p) = calls (advance t' p)
                  /\ network (world (onChange t' v' p))
                     = network (world (advance t' p))).
    { unfold onChange. rewrite Hu.
      destruct (String.eqb_spec v v') as [Heq | _]; [now subst|].
      split; [|split; reflexivity].
      eexists. split; [reflexivity|]. split; reflexivity. }
    destruct Hp2 as (Harmed2 & Hc2 & Hn2).
    destruct (IH t' v' (onChange t' v' p) T Harmed2 Hsp Hd HT) as [Hcalls Hnet].
    rewrite Hcalls, Hnet, Hc2, Hn2, Hc, Hn.
    rewrite (fetched_cons (t, v) ((t', v') :: rest)), map_app, !app_assoc.
    now split.
Qed.

(** The debounce sets no minimum interval between fetches.  Input changes
    that are each left alone for more than 500 ms are each followed by their
    own timeout callback: [getVideoInfo] is called once for every value
    that contains [http], 500 ms after that value was entered, in order. *)
Theorem spaced_changes_fetch_each t v rest p T :
  quiet_at t p -> v <> url (app (world p)) ->
  spaced t rest -> each_differs v rest ->
  fst (last_change (t, v) rest) + 500 <= T ->
  calls (advance T (typing ((t, v) :: rest) p))
  = (calls p ++ fetched ((t, v) :: rest))%list
  /\ network (world (advance T (typing ((t, v) :: rest) p)))
     = (network (world p)
        ++ map (fun c => info_request (snd c)) (fetched ((t, v) :: rest)))%list.
Proof.
  intros Hq Hv Hsp Hd HT. cbn [typing].
  destruct (onChange_settles p t v p Hq Hv eq_refl eq_refl) as (Ht & Hu & Hc & Hn).
  rewrite <- Hc, <- Hn. apply typing_spaced; try assumption.
  eexists. split; [exact Ht|]. now split.
Qed.

Lemma spaced_changes_fetch_each_witness :
  let p := mkPage (page_with "" [] true) None [] in
  let changes :=
    [(0, "https://a.example/1"); (600, "notes"); (1200, "https://b.example/2")] in
  calls (advance 1700 (typing changes p))
  = [(500, "https://a.example/1"); (1700, "https://b.example/2")]
  /\ network (world (advance 1700 (typing changes p)))
     = [info_request "https://a.example/1"; info_request "https://b.example/2"].
Proof.
  intros p changes.
  apply (spaced_changes_fetch_each 0 "https://a.example/1"
           [(600, "notes"); (1200, "https://b.example/2")] p 1700).
  - exact I.
  - discriminate.
  - simpl. lia.
  - simpl. repeat split; discriminate.
  - simpl. lia.
Defined.

(** ** A download that outlives the render that started it *)

(** [saveToHistory] builds the new log on the log of the render in which
    the download was submitted.  When Clear All empties the history while
    the request is in flight, the settled download writes the entries that
    were cleared back, behind the new one, to the page and to the store. *)
Theorem cleared_entries_return r data now w :
  truthy (get data "success") = true ->
  let w' :=
    handleDownload_resume r (Fulfilled data) now AdapterOk
      (snd (clearHistory AdapterOk w)) in
  downloadHistory (app (snd (clearHistory AdapterOk w))) = []
  /\ downloadHistory (app w')
     = newHistory (downloadHistory r) (history_item r data) now
  /\ stored_log w' = newHistory (downloadHistory r) (history_item r data) now
  /\ (forall old, old ∈ take 19 (downloadHistory r) -> old ∈ downloadHistory (app w')).
Proof.
  intros Hok w'. subst w'. unfold handleDownload_resume. rewrite Hok.
  cbn [saveToHistory snd app setLoading setVideoInfo setUrl setMessage
       setDownloadHistory set_app downloadHistory].
  split; [reflexivity|]. split; [reflexivity|]. split.
  - unfold stored_log. cbn [storage setLoading setVideoInfo setUrl setMessage
      setDownloadHistory set_app set_storage]. now rewrite lookup_insert_eq.
  - intros old Hold. unfold newHistory. cbn [take]. now right.
Qed.

Lemma cleared_entries_return_witness :
  let w := page_with "https://example.com/v1" [sample_entry 0] true in
  let data : JsObject := <["success" := VBool true]> ∅ in
  let w' :=
    handleDownload_resume (app w) (Fulfilled data) "now" AdapterOk
      (snd (clearHistory AdapterOk w)) in
  downloadHistory (app (snd (clearHistory AdapterOk w))) = []
  /\ downloadHistory (app w')
     = newHistory [sample_entry 0] (history_item (app w) data) "now"
  /\ stored_log w' = newHistory [sample_entry 0] (history_item (app w) data) "now"
  /\ (forall old, old ∈ take 19 [sample_entry 0] -> old ∈ downloadHistory (app w')).
Proof.
  intros w data.
  apply (cleared_entries_return (app w) data "now" w). reflexivity.
Defined.
